(** * Download_Url: the batch downloader of [auto_download_image.py]

    A shallow embedding of [GoogleDriveDownloaderGUI.google_drive_bulk_download]
    and [GoogleDriveDownloaderGUI.fix_google_drive_url], with the Python
    library operations they rely on ([str.strip], [str.replace], [in],
    [readlines], [try]/[except]) written out, and the properties of the
    batch run stated against that embedding. *)

From Stdlib Require Import Ascii String DecimalString.
From Stdlib Require Import NArith Arith Bool Lia List.
Import ListNotations.

Set Implicit Arguments.

(** ** Python strings

    A Python [str] is a sequence of Unicode code points; a code point is
    kept as an [N].  Literals of the source are written [py "..."]. *)

Module PyStr.

Local Open Scope N_scope.

Definition str := list N.

Definition py (s : string) : str := map N_of_ascii (list_ascii_of_string s).
Arguments py s%_string.

(** [str(n)] for a non-negative [int]. *)
Definition str_of_nat (n : nat) : str :=
  py (NilEmpty.string_of_uint (Nat.to_uint n)).

Definition LF : N := 10.
Definition CR : N := 13.

(** The code points for which [str.isspace] holds, which are the ones
    [str.strip()] removes. *)
Definition isspace (c : N) : bool :=
  ((9 <=? c) && (c <=? 13)) || ((28 <=? c) && (c <=? 32))
  || (c =? 133) || (c =? 160) || (c =? 5760)
  || ((8192 <=? c) && (c <=? 8202))
  || (c =? 8232) || (c =? 8233) || (c =? 8239) || (c =? 8287)
  || (c =? 12288).

Fixpoint lstrip (s : str) : str :=
  match s with
  | [] => []
  | c :: s' => if isspace c then lstrip s' else s
  end.

Definition rstrip (s : str) : str := rev (lstrip (rev s)).

(** [s.strip()] *)
Definition strip (s : str) : str := rstrip (lstrip s).

(** [s.startswith(p)] *)
Fixpoint startswith (p s : str) : bool :=
  match p, s with
  | [], _ => true
  | _ :: _, [] => false
  | a :: p', b :: s' => (a =? b) && startswith p' s'
  end.

(** [s.endswith(p)] *)
Definition endswith (p s : str) : bool := startswith (rev p) (rev s).

(** [sub in s] *)
Fixpoint contains (sub s : str) : bool :=
  startswith sub s ||
  match s with
  | [] => false
  | _ :: s' => contains sub s'
  end.

(** [a == b] *)
Fixpoint str_eqb (a b : str) : bool :=
  match a, b with
  | [], [] => true
  | x :: a', y :: b' => (x =? y) && str_eqb a' b'
  | _, _ => false
  end.

(** [s.replace(old, new)]: every occurrence of [old], found from left to
    right without overlap, becomes [new].  [skip] counts the characters of
    the occurrence just replaced that are still to be passed over. *)
Fixpoint replace_from (old new : str) (skip : nat) (s : str) : str :=
  match s with
  | [] => []
  | c :: s' =>
      match skip with
      | S k => replace_from old new k s'
      | O =>
          if startswith old s
          then new ++ replace_from old new (length old - 1)%nat s'
          else c :: replace_from old new 0 s'
      end
  end.

Definition replace (old new s : str) : str :=
  match old with
  | [] => new ++ flat_map (fun c => c :: new) s
  | _ :: _ => replace_from old new 0 s
  end.

(** Text-mode reading with universal newlines: ["\r\n"] and a lone ["\r"]
    are read as ["\n"]. *)
Fixpoint translate_newlines (s : str) : str :=
  match s with
  | [] => []
  | c :: s' =>
      if c =? CR then
        match s' with
        | d :: _ => if d =? LF then translate_newlines s'
                    else LF :: translate_newlines s'
        | [] => [LF]
        end
      else c :: translate_newlines s'
  end.

(** The lines of a text, each keeping its ["\n"]; the last line has none
    when the text does not end with one. *)
Fixpoint split_keepends (s : str) : list str :=
  match s with
  | [] => []
  | c :: s' =>
      if c =? LF then [c] :: split_keepends s'
      else match split_keepends s' with
           | [] => [[c]]
           | l :: ls => (c :: l) :: ls
           end
  end.

(** [file.readlines()] on a file opened with [open(path, 'r')], given the
    decoded text of the file. *)
Definition readlines (text : str) : list str :=
  split_keepends (translate_newlines text).

End PyStr.

Import PyStr.

(** ** The URL normalizer *)

Definition DRIVE_HOST : str := py "drive.google.com".
Definition FILE_D : str := py "/file/d/".
Definition UC_ID : str := py "/uc?id=".
Definition VIEW : str := py "/view".

(** [fix_google_drive_url], lines 145-151. *)
Definition fix_google_drive_url (url : str) : str :=
  if contains DRIVE_HOST url
  then replace VIEW [] (replace FILE_D UC_ID url)
  else url.

(** ** Exceptions

    The exception classes the worker can meet, with the part of Python's
    class hierarchy that the [except] clauses of the source look at. *)

Inductive pyclass :=
| BaseException | SystemExit | KeyboardInterrupt | Exception
| OSError | PermissionError | FileNotFoundError
| ValueError | UnicodeDecodeError
| RequestException | MissingSchema
| RuntimeError.

(** [IOError] is an alias of [OSError]. *)
Definition IOError : pyclass := OSError.

Definition pyclass_eqb (c d : pyclass) : bool :=
  match c, d with
  | BaseException, BaseException | SystemExit, SystemExit
  | KeyboardInterrupt, KeyboardInterrupt | Exception, Exception
  | OSError, OSError | PermissionError, PermissionError
  | FileNotFoundError, FileNotFoundError | ValueError, ValueError
  | UnicodeDecodeError, UnicodeDecodeError
  | RequestException, RequestException | MissingSchema, MissingSchema
  | RuntimeError, RuntimeError => true
  | _, _ => false
  end.

(** The class itself followed by all its ancestors.  In [requests],
    [RequestException] derives from [IOError] and [MissingSchema] from
    [RequestException] and [ValueError]. *)
Definition mro (c : pyclass) : list pyclass :=
  match c with
  | BaseException => [BaseException]
  | SystemExit => [SystemExit; BaseException]
  | KeyboardInterrupt => [KeyboardInterrupt; BaseException]
  | Exception => [Exception; BaseException]
  | OSError => [OSError; Exception; BaseException]
  | PermissionError => [PermissionError; OSError; Exception; BaseException]
  | FileNotFoundError => [FileNotFoundError; OSError; Exception; BaseException]
  | ValueError => [ValueError; Exception; BaseException]
  | UnicodeDecodeError =>
      [UnicodeDecodeError; ValueError; Exception; BaseException]
  | RequestException => [RequestException; OSError; Exception; BaseException]
  | MissingSchema =>
      [MissingSchema; RequestException; OSError; ValueError; Exception;
       BaseException]
  | RuntimeError => [RuntimeError; Exception; BaseException]
  end.

(** A raised exception: its class and [str(e)]. *)
Record exn := { exn_class : pyclass; exn_str : str }.

Definition isinstance (e : exn) (c : pyclass) : bool :=
  existsb (pyclass_eqb c) (mro (exn_class e)).

(** What a call into the operating system or a library gives back. *)
Inductive outcome (A : Type) :=
| Ok (a : A)
| Raise (e : exn).
Arguments Ok {A} a.
Arguments Raise {A} e.

(** ** The worker's surroundings *)

(** The calls the worker makes outside itself, with paths as the operating
    system resolves them against the working directory of the moment. *)
Inductive call :=
| Chdir (path : str)
| IsFile (path : str)
| Mkdir (path : str)
| OpenRead (path : str)
| Download (cwd url : str) (quiet fuzzy : bool).

(** Everything the run depends on and does not decide: the interpreter's
    [sys] attributes, the file system and the download library.  Nothing is
    assumed about the answers. *)
Record world := {
  sys_frozen : bool;                (* getattr(sys, 'frozen', False) *)
  sys_MEIPASS : str;                (* sys._MEIPASS *)
  script_dir : str;  (* os.path.dirname(os.path.abspath(__file__)) *)
  launch_dir : str;                 (* working directory when the run starts *)
  (* a path as pathlib and the system resolve it against a directory *)
  abspath : str -> str -> str;
  chdir_result : str -> outcome unit;
  is_file_result : str -> outcome bool;
  mkdir_result : str -> outcome unit;   (* parents=True, exist_ok=True *)
  read_result : str -> outcome str;     (* the decoded text of the file *)
  (* the answer to the i-th download of the run, made from [cwd] *)
  download_result : nat -> str -> str -> outcome unit
}.

(** A line of the log panel: the level as [log_message] prints it and the
    message. *)
Record entry := { level : str; message : str }.

(** The state of the worker: working directory, calls made so far and the
    lines handed to the log panel, both oldest first. *)
Record proc := {
  cwd : str;
  calls : list call;
  log_text : list entry
}.

Definition set_cwd (d : str) (p : proc) : proc :=
  {| cwd := d; calls := calls p; log_text := log_text p |}.
Definition add_call (c : call) (p : proc) : proc :=
  {| cwd := cwd p; calls := calls p ++ [c]; log_text := log_text p |}.
Definition add_entry (e : entry) (p : proc) : proc :=
  {| cwd := cwd p; calls := calls p; log_text := log_text p ++ [e] |}.

(** ** Statements: state, exceptions and [return] *)

(** How a statement ends: normally with a value, by an exception on its way
    up, or by a [return] of the enclosing function. *)
Inductive signal (A : Type) :=
| Normal (a : A)
| Raised (e : exn)
| Returned.
Arguments Normal {A} a.
Arguments Raised {A} e.
Arguments Returned {A}.

Definition M (A : Type) : Type := proc -> proc * signal A.

Definition ret {A} (a : A) : M A := fun p => (p, Normal a).

Definition bind {A B} (m : M A) (k : A -> M B) : M B :=
  fun p =>
    match m p with
    | (p', Normal a) => k a p'
    | (p', Raised e) => (p', Raised e)
    | (p', Returned) => (p', Returned)
    end.

Definition return_ {A} : M A := fun p => (p, Returned).

Declare Scope stmt_scope.
Delimit Scope stmt_scope with stmt.
Notation "x <- m ;; k" := (bind m (fun x => k))
  (at level 61, m at next level, right associativity) : stmt_scope.
Notation "m ;; k" := (bind m (fun _ => k))
  (at level 61, right associativity) : stmt_scope.
Local Open Scope stmt_scope.

(** [if c: body] *)
Definition when (c : bool) (body : M unit) : M unit :=
  if c then body else ret tt.

(** [try: body  except C1: h1  except C2: h2 ...]: the first clause whose
    classes the exception is an instance of handles it; with none, the
    exception goes on up. *)
Fixpoint handle {A} (handlers : list (list pyclass * (exn -> M A)))
         (e : exn) : M A :=
  match handlers with
  | [] => fun p => (p, Raised e)
  | (classes, h) :: rest =>
      if existsb (isinstance e) classes then h e else handle rest e
  end.

Definition try_except {A} (body : M A)
           (handlers : list (list pyclass * (exn -> M A))) : M A :=
  fun p =>
    match body p with
    | (p', Raised e) => handle handlers e p'
    | r => r
    end.

(** [for x in xs: body] *)
Fixpoint for_each {A} (xs : list A) (body : A -> M unit) : M unit :=
  match xs with
  | [] => ret tt
  | x :: xs' => body x ;; for_each xs' body
  end.

(** [enumerate(xs, start)] *)
Definition enumerate {A} (xs : list A) (start : nat) : list (nat * A) :=
  combine (seq start (List.length xs)) xs.

(** A call of a function whose body is [body]: a [return] ends the call
    normally, an exception leaves it. *)
Definition call_function (body : M unit) (p : proc) : proc * outcome unit :=
  match body p with
  | (p', Normal _) | (p', Returned) => (p', Ok tt)
  | (p', Raised e) => (p', Raise e)
  end.

(** ** The log sink *)

(** [levels.get(level, 'INFO')] of [log_message]. *)
Definition levels_get (level : str) : str :=
  if existsb (str_eqb level) [py "INFO"; py "ERROR"; py "WARNING"]
  then level else py "INFO".

(** The text [update_log] inserts at the end of the panel for an entry. *)
Definition formatted_message (e : entry) : str :=
  level e ++ py " - " ++ message e ++ [LF].

(** [log_message], lines 63-74.  The hand-over to the UI thread by
    [root.after] keeps the order of the calls; the entry is appended to the
    panel. *)
Definition log_message (message level : str) : M unit :=
  fun p =>
    (add_entry {| level := levels_get level; message := message |} p,
     Normal tt).

Definition INFO : str := py "INFO".
Definition ERROR : str := py "ERROR".
Definition WARNING : str := py "WARNING".

(** ** The batch downloader *)

Definition is_download (c : call) : bool :=
  match c with Download _ _ _ _ => true | _ => false end.

Definition downloads_made (cs : list call) : nat :=
  List.length (filter is_download cs).

Section Worker.

Variable W : world.

(** [os.chdir(path)] *)
Definition os_chdir (path : str) : M unit :=
  fun p =>
    let target := abspath W (cwd p) path in
    match chdir_result W target with
    | Ok _ => (set_cwd target (add_call (Chdir target) p), Normal tt)
    | Raise e => (add_call (Chdir target) p, Raised e)
    end.

(** [Path(path).is_file()] *)
Definition is_file (path : str) : M bool :=
  fun p =>
    let target := abspath W (cwd p) path in
    match is_file_result W target with
    | Ok b => (add_call (IsFile target) p, Normal b)
    | Raise e => (add_call (IsFile target) p, Raised e)
    end.

(** [Path(path).mkdir(parents=True, exist_ok=True)] *)
Definition mkdir (path : str) : M unit :=
  fun p =>
    let target := abspath W (cwd p) path in
    match mkdir_result W target with
    | Ok _ => (add_call (Mkdir target) p, Normal tt)
    | Raise e => (add_call (Mkdir target) p, Raised e)
    end.

(** [with open(path, 'r', encoding='utf-8') as file: file.readlines()] *)
Definition open_readlines (path : str) : M (list str) :=
  fun p =>
    let target := abspath W (cwd p) path in
    match read_result W target with
    | Ok text => (add_call (OpenRead target) p, Normal (readlines text))
    | Raise e => (add_call (OpenRead target) p, Raised e)
    end.

(** [gdown.download(url=url, quiet=quiet, fuzzy=fuzzy)] *)
Definition download (url : str) (quiet fuzzy : bool) : M unit :=
  fun p =>
    let p' := add_call (Download (cwd p) url quiet fuzzy) p in
    match download_result W (S (downloads_made (calls p))) (cwd p) url with
    | Ok _ => (p', Normal tt)
    | Raise e => (p', Raised e)
    end.

Definition application_path : str :=
  if sys_frozen W then sys_MEIPASS W else script_dir W.

(** The body of the [for] loop, lines 130-141. *)
Definition download_item (file_lines_count : nat) (item : nat * str)
  : M unit :=
  let '(i, url_raw) := item in
  let download_url := fix_google_drive_url (strip url_raw) in
  log_message
    (py "Downloading [" ++ str_of_nat i ++ py "/"
       ++ str_of_nat file_lines_count ++ py "]: " ++ download_url) INFO ;;
  try_except
    (download download_url false true ;;
     log_message (py "Download completed successfully") INFO)
    [ ([MissingSchema], fun _ =>
         log_message
           (py "Invalid URL format: '" ++ download_url ++ py "'") ERROR);
      ([RequestException], fun e =>
         log_message
           (py "Network error while downloading '" ++ download_url
              ++ py "': " ++ exn_str e) ERROR);
      ([Exception], fun e =>
         log_message
           (py "Unexpected error while downloading '" ++ download_url
              ++ py "': " ++ exn_str e) ERROR) ].

(** The list comprehension of lines 114-116. *)
Definition clean_lines (lines : list str) : list str :=
  map strip (filter (fun line => negb (str_eqb (strip line) [])) lines).

(** The body of [google_drive_bulk_download], lines 88-143. *)
Definition google_drive_bulk_download_body
           (links_file_path output_directory_path : str) : M unit :=
  os_chdir application_path ;;
  let links_path := links_file_path in
  is_a_file <- is_file links_path ;;
  when (negb is_a_file)
    (log_message
       (py "The file '" ++ links_file_path ++ py "' does not exist!") ERROR ;;
     return_) ;;
  let output_path := output_directory_path in
  try_except
    (mkdir output_path ;;
     os_chdir output_path)
    [ ([OSError; PermissionError], fun e =>
         log_message
           (py "Failed to set output directory '" ++ output_directory_path
              ++ py "': " ++ exn_str e) ERROR ;;
         return_) ] ;;
  file_lines <-
    try_except
      (lines <- open_readlines links_path ;;
       ret (clean_lines lines))
      [ ([IOError; UnicodeDecodeError], fun e =>
           log_message
             (py "Failed to read file '" ++ links_file_path ++ py "': "
                ++ exn_str e) ERROR ;;
           return_) ] ;;
  when (match file_lines with [] => true | _ :: _ => false end)
    (log_message (py "No valid URLs found in the file!") WARNING ;;
     return_) ;;
  let file_lines_count := List.length file_lines in
  log_message (py "Started downloading process") INFO ;;
  for_each (enumerate file_lines 1) (download_item file_lines_count) ;;
  log_message (py "Finished downloading process") INFO.

(** A run of the worker, from the directory the program was launched in
    and with an empty log panel ([start_download] clears it). *)
Definition initial : proc :=
  {| cwd := launch_dir W; calls := []; log_text := [] |}.

Definition google_drive_bulk_download
           (links_file_path output_directory_path : str)
  : proc * outcome unit :=
  call_function
    (google_drive_bulk_download_body links_file_path output_directory_path)
    initial.

End Worker.

(** ** What is observed of a run *)

(** The URLs handed to the download routine, in the order of the calls. *)
Definition attempted (cs : list call) : list str :=
  flat_map (fun c => match c with Download _ u _ _ => [u] | _ => [] end) cs.

Definition has_level (l : str) (e : entry) : bool := str_eqb (level e) l.

Definition count_level (l : str) (log : list entry) : nat :=
  List.length (filter (has_level l) log).

Definition entry_eqb (a b : entry) : bool :=
  str_eqb (level a) (level b) && str_eqb (message a) (message b).

Definition count_entry (e : entry) (log : list entry) : nat :=
  List.length (filter (entry_eqb e) log).

Definition is_mkdir (c : call) : bool :=
  match c with Mkdir _ => true | _ => false end.

Definition is_open_read (c : call) : bool :=
  match c with OpenRead _ => true | _ => false end.

Definition started_entry : entry :=
  {| level := INFO; message := py "Started downloading process" |}.

Definition finished_entry : entry :=
  {| level := INFO; message := py "Finished downloading process" |}.

(** A statement that only adds to the record of calls. *)
Definition appends_calls {A} (m : M A) : Prop :=
  forall p, exists more, calls (fst (m p)) = calls p ++ more.

(** ** The stages of a run, in terms of the answers of the surroundings *)

Section Stages.

Variable W : world.
Variables links_file_path output_directory_path : str.

(** The working directory after line 94. *)
Definition app_dir : str := abspath W (launch_dir W) (application_path W).

(** The working directory after line 106. *)
Definition out_dir : str := abspath W app_dir output_directory_path.

(** Line 94 went through: validation of the links file is reached. *)
Definition reaches_validation : Prop :=
  chdir_result W app_dir = Ok tt.

(** Lines 97-100 found a file: the output directory is set next. *)
Definition reaches_output_setup : Prop :=
  reaches_validation /\
  is_file_result W (abspath W app_dir links_file_path) = Ok true.

(** Lines 104-106 went through: the links file is read next. *)
Definition reaches_reading : Prop :=
  reaches_output_setup /\
  mkdir_result W out_dir = Ok tt /\
  chdir_result W out_dir = Ok tt.

(** The links file was read and decoded to [text]. *)
Definition links_read (text : str) : Prop :=
  reaches_reading /\
  read_result W (abspath W out_dir links_file_path) = Ok text.

(** The run reaches the download loop with the lines of [text]. *)
Definition reaches_loop (text : str) : Prop :=
  links_read text /\ clean_lines (readlines text) <> [].

(** Setting the output directory fails with [e]: in [mkdir], or in the
    [os.chdir] after it. *)
Definition output_setup_fails (e : exn) : Prop :=
  reaches_output_setup /\
  (mkdir_result W out_dir = Raise e \/
   (mkdir_result W out_dir = Ok tt /\ chdir_result W out_dir = Raise e)).

(** Every failure of the download routine is an error, that is an instance
    of [Exception]. *)
Definition download_failures_are_errors : Prop :=
  forall i d u e,
    download_result W i d u = Raise e -> isinstance e Exception = true.

(** The URLs of the download loop for a links file of content [text],
    and the same numbered from 1 as the loop numbers them. *)
Definition download_urls (text : str) : list str :=
  map (fun line => fix_google_drive_url (strip line))
      (clean_lines (readlines text)).

Definition download_items (text : str) : list (nat * str) :=
  enumerate (download_urls text) 1.

(** The download of item [(i, u)], the [i]-th of the run, fails. *)
Definition download_fails (item : nat * str) : bool :=
  match download_result W (fst item) out_dir (snd item) with
  | Ok _ => false
  | Raise _ => true
  end.

(** The lines of the log an item accounts for. *)
Definition downloading_entry (total : nat) (item : nat * str) : entry :=
  {| level := INFO;
     message := py "Downloading [" ++ str_of_nat (fst item) ++ py "/"
                  ++ str_of_nat total ++ py "]: " ++ snd item |}.

Definition completed_entry : entry :=
  {| level := INFO; message := py "Download completed successfully" |}.

Definition invalid_url_entry (u : str) : entry :=
  {| level := ERROR; message := py "Invalid URL format: '" ++ u ++ py "'" |}.

Definition network_error_entry (u : str) (e : exn) : entry :=
  {| level := ERROR;
     message := py "Network error while downloading '" ++ u ++ py "': "
                  ++ exn_str e |}.

Definition unexpected_error_entry (u : str) (e : exn) : entry :=
  {| level := ERROR;
     message := py "Unexpected error while downloading '" ++ u ++ py "': "
                  ++ exn_str e |}.

Definition error_entry (u : str) (e : exn) : entry :=
  if isinstance e MissingSchema then invalid_url_entry u
  else if isinstance e RequestException then network_error_entry u e
  else unexpected_error_entry u e.

Definition outcome_entry (item : nat * str) : entry :=
  match download_result W (fst item) out_dir (snd item) with
  | Ok _ => completed_entry
  | Raise e => error_entry (snd item) e
  end.

Definition item_entries (total : nat) (item : nat * str) : list entry :=
  [downloading_entry total item; outcome_entry item].

End Stages.

(** ** The host of a URL, in the words of the specification *)

Module UrlSpec.

(** What follows the first occurrence of [sep]. *)
Fixpoint after_first (sep s : str) {struct s} : option str :=
  if startswith sep s then Some (skipn (List.length sep) s)
  else match s with
       | [] => None
       | _ :: s' => after_first sep s'
       end.

(** The characters before the first one that [stop] accepts. *)
Fixpoint take_until (stop : N -> bool) (s : str) : str :=
  match s with
  | [] => []
  | c :: s' => if stop c then [] else c :: take_until stop s'
  end.

(** What follows the last [c], the whole string when there is none. *)
Fixpoint after_last (c : N) (s : str) : str :=
  match s with
  | [] => []
  | x :: s' =>
      if existsb (N.eqb c) s' then after_last c s'
      else if N.eqb x c then s' else s
  end.

Definition ends_authority (c : N) : bool :=
  (c =? 47)%N || (c =? 63)%N || (c =? 35)%N.     (* '/', '?', '#' *)

(** [scheme://userinfo@host:port/path?query#fragment]: the host as it is
    written in the URL. *)
Definition url_host_written (url : str) : option str :=
  match after_first (py "://") url with
  | None => None
  | Some rest =>
      let authority := take_until ends_authority rest in
      Some (take_until (N.eqb 58) (after_last 64 authority))  (* ':', '@' *)
  end.

(** A letter [A]-[Z] in lower case, any other character as it is. *)
Definition lower (c : N) : N :=
  if ((65 <=? c) && (c <=? 90))%N then (c + 32)%N else c.

(** The host of the URL: host names do not distinguish upper and lower
    case, and the host is given in lower case. *)
Definition url_host (url : str) : option str :=
  option_map (map lower) (url_host_written url).

(** The URL's host is the file-hosting service. *)
Definition host_is_drive (url : str) : Prop :=
  url_host url = Some DRIVE_HOST.

(** The URL's host is the file-hosting service, written in lower case. *)
Definition host_written_drive (url : str) : Prop :=
  url_host_written url = Some DRIVE_HOST.

End UrlSpec.

(** ** Sample surroundings *)

Module Sample.

Definition posix_abspath (dir path : str) : str :=
  if startswith (py "/") path then path else dir ++ py "/" ++ path.

Definition links_txt : str := py "/home/user/links.txt".
Definition out_path : str := py "/data/out".

(** Four lines, one of them blank, the third ending in CR LF. *)
Definition links_text : str :=
  py "https://drive.google.com/file/d/ABC123/view" ++ [LF] ++
  py "   " ++ [LF] ++
  py "  not a url " ++ [CR; LF] ++
  py "https://example.com/foo.zip".

Definition blank_text : str := [LF; 32; 9; CR; LF; 12288; LF]%N.

Definition no_schema : exn :=
  {| exn_class := MissingSchema; exn_str := py "Invalid URL 'not a url'" |}.
Definition timed_out : exn :=
  {| exn_class := RequestException; exn_str := py "read timed out" |}.
Definition permission_denied : str :=
  py "[Errno 13] Permission denied: '/data/out'".
Definition read_only : exn :=
  {| exn_class := PermissionError; exn_str := permission_denied |}.

(** The second download fails on a malformed URL, the third on the
    network. *)
Definition downloads (i : nat) (d u : str) : outcome unit :=
  match i with
  | 2 => Raise no_schema
  | 3 => Raise timed_out
  | _ => Ok tt
  end.

Definition make (exists_ : bool) (mk : outcome unit) (text : str) : world :=
  {| sys_frozen := false;
     sys_MEIPASS := py "/tmp/_MEI4242";
     script_dir := py "/opt/app";
     launch_dir := py "/home/user";
     abspath := posix_abspath;
     chdir_result := fun _ => Ok tt;
     is_file_result := fun _ => Ok exists_;
     mkdir_result := fun _ => mk;
     read_result := fun _ => Ok text;
     download_result := downloads |}.

Definition usual : world := make true (Ok tt) links_text.
Definition no_links_file : world := make false (Ok tt) links_text.
Definition blank_links_file : world := make true (Ok tt) blank_text.
Definition read_only_output : world := make true (Raise read_only) links_text.

(** A frozen build, where only the file beside the executable exists. *)
Definition frozen : world :=
  {| sys_frozen := true;
     sys_MEIPASS := py "/tmp/_MEI4242";
     script_dir := py "/opt/app";
     launch_dir := py "/home/user";
     abspath := posix_abspath;
     chdir_result := fun _ => Ok tt;
     is_file_result := fun p => Ok (str_eqb p (py "/tmp/_MEI4242/links.txt"));
     mkdir_result := fun _ => Ok tt;
     read_result := fun _ => Ok links_text;
     download_result := downloads |}.

End Sample.

(** ** Downloads that end the loop

    The [except Exception] clause of lines 140-141 lets through what is no
    instance of [Exception]; such an exception leaves the loop and the
    function. *)

Section Escapes.

Variable W : world.
Variable output_directory_path : str.

(** The download of the item raises something the three [except] clauses
    do not catch. *)
Definition escapes (item : nat * str) : bool :=
  match download_result W (fst item) (out_dir W output_directory_path)
                        (snd item) with
  | Ok _ => false
  | Raise e => negb (isinstance e Exception)
  end.

(** The items the loop gets to: all of them up to the first whose download
    escapes, that one included. *)
Fixpoint reached (items : list (nat * str)) : list (nat * str) :=
  match items with
  | [] => []
  | item :: rest => item :: (if escapes item then [] else reached rest)
  end.

(** The lines of log of an item the loop gets to. *)
Definition reached_entries (total : nat) (item : nat * str) : list entry :=
  if escapes item then [downloading_entry total item]
  else item_entries W output_directory_path total item.

(** How the loop ends: normally, or by the exception of the first download
    that escapes. *)
Definition loop_outcome (items : list (nat * str)) : outcome unit :=
  match find escapes items with
  | None => Ok tt
  | Some item =>
      download_result W (fst item) (out_dir W output_directory_path)
                      (snd item)
  end.

End Escapes.

(** ** The text of the log panel *)

(** The content of the panel after the entries of [log] were inserted at
    its end, one after the other. *)
Definition panel_text (log : list entry) : str :=
  flat_map formatted_message log.

(** ** The form: lines 19-86

    The two [StringVar]s of the form and what its commands do outside it:
    the error dialog, the clearing of the log panel and the start of a
    worker thread. *)

Module Gui.

Inductive effect :=
| ShowError (title message : str)          (* messagebox.showerror *)
| ClearLog                                 (* log_text.delete(1.0, "end") *)
| StartWorker (links_file output_dir : str).  (* Thread(...).start() *)

Record form := {
  links_file_path : str;
  output_directory_path : str;
  effects : list effect                    (* oldest first *)
}.

(** The truth value of a [str]: the empty string is false. *)
Definition truthy (s : str) : bool :=
  match s with [] => false | _ :: _ => true end.

(** [browse_links_file], lines 50-56, with what the file dialog returns:
    the empty string when it is cancelled. *)
Definition browse_links_file (file_path : str) (f : form) : form :=
  if truthy file_path
  then {| links_file_path := file_path;
          output_directory_path := output_directory_path f;
          effects := effects f |}
  else f.

(** [browse_output_directory], lines 58-61. *)
Definition browse_output_directory (directory : str) (f : form) : form :=
  if truthy directory
  then {| links_file_path := links_file_path f;
          output_directory_path := directory;
          effects := effects f |}
  else f.

Definition add_effects (es : list effect) (f : form) : form :=
  {| links_file_path := links_file_path f;
     output_directory_path := output_directory_path f;
     effects := effects f ++ es |}.

(** [start_download], lines 76-86. *)
Definition start_download (f : form) : form :=
  let links_file := links_file_path f in
  let output_dir := output_directory_path f in
  if negb (truthy links_file) || negb (truthy output_dir)
  then add_effects
         [ShowError (py "Error")
            (py "Please select both the links file and output directory!")]
         f
  else add_effects [ClearLog; StartWorker links_file output_dir] f.

(** What the user does with the form; the two entry fields are bound to
    the [StringVar]s and can be typed into. *)
Inductive action :=
| BrowseLinksFile (answer : str)
| BrowseOutputDirectory (answer : str)
| TypeLinksFile (text : str)
| TypeOutputDirectory (text : str)
| ClickStart.

Definition act (f : form) (a : action) : form :=
  match a with
  | BrowseLinksFile answer => browse_links_file answer f
  | BrowseOutputDirectory answer => browse_output_directory answer f
  | TypeLinksFile text =>
      {| links_file_path := text;
         output_directory_path := output_directory_path f;
         effects := effects f |}
  | TypeOutputDirectory text =>
      {| links_file_path := links_file_path f;
         output_directory_path := text;
         effects := effects f |}
  | ClickStart => start_download f
  end.

Definition session (actions : list action) (f : form) : form :=
  fold_left act actions f.

(** The form as [__init__] leaves it. *)
Definition opened : form :=
  {| links_file_path := []; output_directory_path := []; effects := [] |}.

Definition is_start_worker (e : effect) : bool :=
  match e with StartWorker _ _ => true | _ => false end.

Definition is_show_error (e : effect) : bool :=
  match e with ShowError _ _ => true | _ => false end.

Definition is_clear_log (e : effect) : bool :=
  match e with ClearLog => true | _ => false end.

Definition is_click_start (a : action) : bool :=
  match a with ClickStart => true | _ => false end.

(** A dialog that was cancelled. *)
Definition is_cancelled (a : action) : bool :=
  match a with
  | BrowseLinksFile [] | BrowseOutputDirectory [] => true
  | _ => false
  end.

End Gui.

(** Surroundings in which the second download is interrupted. *)
Module SampleInterrupted.

Definition system_exit : exn :=
  {| exn_class := SystemExit; exn_str := py "1" |}.

Definition downloads (i : nat) (d u : str) : outcome unit :=
  match i with
  | 2 => Raise system_exit
  | _ => Ok tt
  end.

Definition interrupted : world :=
  {| sys_frozen := false;
     sys_MEIPASS := py "/tmp/_MEI4242";
     script_dir := py "/opt/app";
     launch_dir := py "/home/user";
     abspath := Sample.posix_abspath;
     chdir_result := fun _ => Ok tt;
     is_file_result := fun _ => Ok true;
     mkdir_result := fun _ => Ok tt;
     read_result := fun _ => Ok Sample.links_text;
     download_result := downloads |}.

Definition undecodable : exn :=
  {| exn_class := UnicodeDecodeError;
     exn_str := py "'utf-8' codec can't decode byte 0xff in position 0" |}.

Definition unreadable : world :=
  {| sys_frozen := false;
     sys_MEIPASS := py "/tmp/_MEI4242";
     script_dir := py "/opt/app";
     launch_dir := py "/home/user";
     abspath := Sample.posix_abspath;
     chdir_result := fun _ => Ok tt;
     is_file_result := fun _ => Ok true;
     mkdir_result := fun _ => Ok tt;
     read_result := fun _ => Raise undecodable;
     download_result := downloads |}.

End SampleInterrupted.

(** ** Facts about the string operations *)

Module PyStrFacts.

Lemma str_eqb_eq (a b : str) : str_eqb a b = true <-> a = b.
Proof.
  revert b; induction a as [|x a IH]; intros [|y b]; simpl;
    try (split; intro H;
         [reflexivity || discriminate | reflexivity || discriminate]).
  rewrite andb_true_iff, N.eqb_eq, IH.
  split; [intros [-> ->]; reflexivity | intros H; injection H; auto].
Qed.

Lemma startswith_iff (p s : str) :
  startswith p s = true <-> exists t, s = p ++ t.
Proof.
  revert s; induction p as [|a p IH]; intros s; simpl.
  - split; [intros _; exists s; reflexivity | reflexivity].
  - destruct s as [|b s].
    + split; [discriminate | intros [t H]; discriminate].
    + rewrite andb_true_iff, N.eqb_eq, IH. split.
      * intros [-> [t ->]]. exists t; reflexivity.
      * intros [t H]. injection H as -> ->.
        split; [reflexivity | exists t; reflexivity].
Qed.

Lemma startswith_app (p t : str) : startswith p (p ++ t) = true.
Proof. apply startswith_iff. exists t; reflexivity. Qed.

Lemma contains_cons (sub : str) (c : N) (s : str) :
  contains sub (c :: s) = startswith sub (c :: s) || contains sub s.
Proof. reflexivity. Qed.

(** [sub in s] holds exactly when [sub] occurs somewhere in [s]. *)
Lemma contains_iff (sub s : str) :
  contains sub s = true <-> exists a b, s = a ++ sub ++ b.
Proof.
  induction s as [|c s IH].
  - simpl. rewrite orb_false_r, startswith_iff. split.
    + intros [t H]. exists [], t. exact H.
    + intros [a [b H]]. destruct a; [exists b; exact H | discriminate].
  - rewrite contains_cons, orb_true_iff, startswith_iff, IH. split.
    + intros [[t H] | [a [b H]]].
      * exists [], t. exact H.
      * exists (c :: a), b. simpl. rewrite H. reflexivity.
    + intros [a [b H]]. destruct a as [|x a]; simpl in H.
      * left. exists b. exact H.
      * right. injection H as _ H. exists a, b. exact H.
Qed.

Lemma contains_app_r (sub a s : str) :
  contains sub s = true -> contains sub (a ++ s) = true.
Proof.
  rewrite !contains_iff. intros [x [y ->]].
  exists (a ++ x), y. rewrite <- app_assoc. reflexivity.
Qed.

Lemma contains_app_l (sub s b : str) :
  contains sub s = true -> contains sub (s ++ b) = true.
Proof.
  rewrite !contains_iff. intros [x [y ->]].
  exists x, (y ++ b). rewrite <- !app_assoc. reflexivity.
Qed.

Lemma startswith_contains (sub s : str) :
  startswith sub s = true -> contains sub s = true.
Proof.
  destruct s; simpl; intros ->; reflexivity.
Qed.

(** Passing over [k] characters is dropping them. *)
Lemma replace_from_skipn (old new : str) (k : nat) (s : str) :
  replace_from old new k s = replace_from old new 0 (skipn k s).
Proof.
  revert k; induction s as [|c s IH]; intros [|k]; try reflexivity.
  simpl replace_from at 1. rewrite IH. reflexivity.
Qed.

(** The equations of [str.replace] for a non-empty [old]. *)
Lemma replace_nil (old new : str) :
  replace old new [] = match old with [] => new | _ :: _ => [] end.
Proof. destruct old; simpl; [rewrite app_nil_r|]; reflexivity. Qed.

Lemma replace_hit (old new s : str) :
  old <> [] -> startswith old s = true ->
  replace old new s = new ++ replace old new (skipn (List.length old) s).
Proof.
  intros Hold Hs. destruct old as [|a old]; [congruence|].
  destruct s as [|c s]; [discriminate|].
  unfold replace. simpl replace_from at 1.
  simpl in Hs. rewrite Hs.
  rewrite replace_from_skipn. simpl. rewrite Nat.sub_0_r. reflexivity.
Qed.

Lemma replace_miss (old new : str) (c : N) (s : str) :
  old <> [] -> startswith old (c :: s) = false ->
  replace old new (c :: s) = c :: replace old new s.
Proof.
  intros Hold Hs. destruct old as [|a old]; [congruence|].
  unfold replace. simpl replace_from at 1.
  simpl in Hs. rewrite Hs. reflexivity.
Qed.

(** Without an occurrence of [old] the string is returned as it is. *)
Lemma replace_absent (old new s : str) :
  old <> [] -> contains old s = false -> replace old new s = s.
Proof.
  intros Hold. induction s as [|c s IH]; intros H.
  - rewrite replace_nil. destruct old; congruence.
  - rewrite contains_cons in H. apply orb_false_iff in H as [H1 H2].
    rewrite replace_miss by assumption. rewrite IH by assumption.
    reflexivity.
Qed.

Lemma startswith_length (p s : str) :
  startswith p s = true -> (List.length p <= List.length s)%nat.
Proof.
  rewrite startswith_iff. intros [t ->]. rewrite length_app. lia.
Qed.

Lemma startswith_shorten (p x y : str) :
  startswith p (x ++ y) = true -> (List.length p <= List.length x)%nat ->
  startswith p x = true.
Proof.
  revert x; induction p as [|a p IH]; intros x H Hlen; [reflexivity|].
  destruct x as [|b x]; simpl in Hlen; [lia|].
  simpl in *. apply andb_true_iff in H as [-> H]. simpl.
  apply IH; [exact H | lia].
Qed.

Lemma skipn_app_exact {A} (a b : list A) : skipn (List.length a) (a ++ b) = b.
Proof. induction a; simpl; auto. Qed.

(** The leftmost occurrence is the one replaced, and the search goes on
    after it. *)
Lemma replace_first (old new a b : str) :
  old <> [] -> contains old (a ++ removelast old) = false ->
  replace old new (a ++ old ++ b) = a ++ new ++ replace old new b.
Proof.
  intros Hold. induction a as [|c a IH]; intros H.
  - simpl. rewrite replace_hit by (auto using startswith_app).
    rewrite skipn_app_exact. reflexivity.
  - simpl app in *. rewrite contains_cons in H.
    apply orb_false_iff in H as [H1 H2].
    rewrite replace_miss;
      [rewrite IH by assumption; reflexivity | assumption |].
    destruct (startswith old (c :: a ++ old ++ b)) eqn:E; [|reflexivity].
    rewrite <- H1. symmetry.
    apply startswith_shorten with (y := [last old 0%N] ++ b).
    + rewrite (app_removelast_last 0%N Hold) in E at 2.
      rewrite <- !app_assoc in E. simpl in E.
      change (c :: a ++ removelast old ++ last old 0%N :: b)
        with ((c :: a) ++ removelast old ++ [last old 0%N] ++ b) in E.
      rewrite app_assoc in E. exact E.
    + simpl. rewrite length_app.
      rewrite (app_removelast_last 0%N Hold) at 1.
      rewrite length_app. simpl. lia.
Qed.

(** The operations on inputs whose results Python gives as follows. *)

Example strip_example :
  strip ([32; 9]%N ++ py "a b" ++ [32; CR; LF]%N) = py "a b".
Proof. reflexivity. Qed.

Example strip_inner_space_example :
  strip (py "a" ++ [12288]%N ++ py "b" ++ [12288]%N)
  = py "a" ++ [12288]%N ++ py "b".
Proof. reflexivity. Qed.

Example contains_example :
  contains (py "b.c") (py "a.b.c.d") = true /\
  contains (py "b.d") (py "a.b.c.d") = false.
Proof. split; reflexivity. Qed.

Example replace_leftmost_example :
  replace (py "aa") (py "b") (py "aaaaa") = py "bba".
Proof. reflexivity. Qed.

Example replace_empty_old_example :
  replace [] (py "-") (py "ab") = py "-a-b-".
Proof. reflexivity. Qed.

Example readlines_example :
  readlines (py "a" ++ [CR; LF] ++ py "b" ++ [CR] ++ py "c" ++ [LF; LF]
               ++ py "d")
  = [py "a" ++ [LF]; py "b" ++ [LF]; py "c" ++ [LF]; [LF]; py "d"].
Proof. reflexivity. Qed.

End PyStrFacts.

(** ** The URL normalizer *)

Module Normalizer.

Import PyStrFacts.

(** The full rewrite the normalizer applies on the [drive.google.com]
    branch. *)
Lemma fix_on_drive (url : str) :
  contains DRIVE_HOST url = true ->
  fix_google_drive_url url = replace VIEW [] (replace FILE_D UC_ID url).
Proof. unfold fix_google_drive_url. intros ->. reflexivity. Qed.

Lemma fix_off_drive (url : str) :
  contains DRIVE_HOST url = false -> fix_google_drive_url url = url.
Proof. unfold fix_google_drive_url. intros ->. reflexivity. Qed.

Lemma VIEW_nonempty : VIEW <> [].
Proof. discriminate. Qed.

Lemma FILE_D_nonempty : FILE_D <> [].
Proof. discriminate. Qed.

Lemma VIEW_eq : VIEW = 47%N :: py "view".
Proof. reflexivity. Qed.

Lemma startswith_cons (a b : N) (p s : str) :
  startswith (a :: p) (b :: s) = (a =? b)%N && startswith p s.
Proof. reflexivity. Qed.

(** The inserted ["/uc?id="] cannot begin or complete a ["/view"]. *)
Lemma contains_VIEW_after_UC_ID (r : str) :
  contains VIEW (UC_ID ++ r) = contains VIEW r.
Proof. destruct r as [|c r]; reflexivity. Qed.

Lemma startswith_slashless_rewritten (w : str) :
  forallb (fun c => negb (c =? 47)%N) w = true ->
  forall s, startswith w (replace FILE_D UC_ID s) = true ->
            startswith w s = true.
Proof.
  induction w as [|a w IH]; intros Hw s H; [reflexivity|].
  simpl in Hw. apply andb_true_iff in Hw as [Ha Hw].
  destruct s as [|c s].
  - rewrite replace_nil in H. discriminate.
  - destruct (startswith FILE_D (c :: s)) eqn:E.
    + rewrite (@replace_hit FILE_D UC_ID _ FILE_D_nonempty E) in H.
      simpl in H. apply andb_true_iff in H as [H _].
      rewrite H in Ha. discriminate.
    + rewrite (@replace_miss FILE_D UC_ID _ _ FILE_D_nonempty E) in H.
      simpl in *. apply andb_true_iff in H as [-> H].
      simpl. apply IH; assumption.
Qed.

(** Rewriting ["/file/d/"] creates no ["/view"]. *)
Lemma rewrite_creates_no_VIEW (n : nat) :
  forall s, (List.length s <= n)%nat ->
            contains VIEW (replace FILE_D UC_ID s) = true ->
            contains VIEW s = true.
Proof.
  induction n as [|n IH]; intros s Hn H.
  - destruct s; [|simpl in Hn; lia]. rewrite replace_nil in H. discriminate.
  - destruct s as [|c s]; [rewrite replace_nil in H; discriminate|].
    destruct (startswith FILE_D (c :: s)) eqn:E.
    + rewrite (@replace_hit FILE_D UC_ID _ FILE_D_nonempty E) in H.
      rewrite contains_VIEW_after_UC_ID in H.
      apply IH in H.
      * rewrite <- (firstn_skipn (List.length FILE_D) (c :: s)).
        apply contains_app_r. exact H.
      * apply startswith_length in E. rewrite length_skipn.
        simpl in *. lia.
    + rewrite (@replace_miss FILE_D UC_ID _ _ FILE_D_nonempty E) in H.
      rewrite contains_cons in *. apply orb_true_iff in H as [H | H].
      * apply orb_true_iff. left.
        rewrite VIEW_eq in *. rewrite startswith_cons in *.
        apply andb_true_iff in H as [-> H].
        apply startswith_slashless_rewritten; [reflexivity | exact H].
      * apply orb_true_iff. right. apply IH; [simpl in Hn; lia | exact H].
Qed.

Lemma VIEW_absent_after_rewrite (s : str) :
  contains VIEW s = false -> contains VIEW (replace FILE_D UC_ID s) = false.
Proof.
  intros H.
  destruct (contains VIEW (replace FILE_D UC_ID s)) eqn:E; [|reflexivity].
  apply (@rewrite_creates_no_VIEW (List.length s)) in E; [congruence | lia].
Qed.

(** The second replacement works on the result of the first: a ["/view"]
    whose ["/"] ends a ["/file/d/"] is used up by the first. *)
Example fix_with_overlapping_patterns :
  fix_google_drive_url (py "https://drive.google.com/file/d/view")
  = py "https://drive.google.com/uc?id=view".
Proof. vm_compute. reflexivity. Qed.

(** *** The host of a URL is a part of the URL *)

Lemma after_first_suffix (sep s r : str) :
  UrlSpec.after_first sep s = Some r -> exists a, s = a ++ r.
Proof.
  induction s as [|c s IH]; simpl.
  - destruct (startswith sep []) eqn:E; [|discriminate].
    intros H. injection H as <-.
    exists (firstn (List.length sep) []). symmetry. apply firstn_skipn.
  - destruct (startswith sep (c :: s)) eqn:E.
    + intros H. injection H as <-.
      exists (firstn (List.length sep) (c :: s)). symmetry. apply firstn_skipn.
    + intros H. destruct (IH H) as [a ->]. exists (c :: a). reflexivity.
Qed.

Lemma take_until_prefix (stop : N -> bool) (s : str) :
  exists b, s = UrlSpec.take_until stop s ++ b.
Proof.
  induction s as [|c s [b IH]]; simpl.
  - exists []. reflexivity.
  - destruct (stop c).
    + exists (c :: s). reflexivity.
    + exists b. simpl. rewrite <- IH. reflexivity.
Qed.

Lemma after_last_suffix (c : N) (s : str) :
  exists a, s = a ++ UrlSpec.after_last c s.
Proof.
  induction s as [|x s [a IH]]; simpl.
  - exists []. reflexivity.
  - destruct (existsb (N.eqb c) s).
    + exists (x :: a). simpl. rewrite <- IH. reflexivity.
    + destruct (x =? c)%N.
      * exists [x]. reflexivity.
      * exists []. reflexivity.
Qed.

Lemma url_host_written_occurs (url h : str) :
  UrlSpec.url_host_written url = Some h -> exists a b, url = a ++ h ++ b.
Proof.
  unfold UrlSpec.url_host_written.
  destruct (UrlSpec.after_first (py "://") url) as [rest|] eqn:E;
    [|discriminate].
  intros H. injection H as <-.
  destruct (after_first_suffix _ _ E) as [a ->].
  destruct (take_until_prefix UrlSpec.ends_authority rest) as [b Hb].
  set (authority := UrlSpec.take_until UrlSpec.ends_authority rest) in *.
  destruct (after_last_suffix 64 authority) as [u Hu].
  set (hostport := UrlSpec.after_last 64 authority) in *.
  destruct (take_until_prefix (N.eqb 58) hostport) as [port Hp].
  set (host := UrlSpec.take_until (N.eqb 58) hostport) in *.
  exists (a ++ u), (port ++ b).
  rewrite Hb at 1. rewrite Hu at 1. rewrite Hp at 1.
  rewrite <- !app_assoc. reflexivity.
Qed.

Lemma host_written_drive_contains (url : str) :
  UrlSpec.host_written_drive url -> contains DRIVE_HOST url = true.
Proof.
  intros H. apply contains_iff. exact (url_host_written_occurs _ H).
Qed.

(** A host written in lower case is the host. *)
Lemma host_written_drive_is_drive (url : str) :
  UrlSpec.host_written_drive url -> UrlSpec.host_is_drive url.
Proof.
  unfold UrlSpec.host_written_drive, UrlSpec.host_is_drive, UrlSpec.url_host.
  intros ->. reflexivity.
Qed.

(** A ["/view"] that the URL has only at its end is the only one left
    after ["/file/d/"] was rewritten. *)
Lemma VIEW_only_at_end_after_rewrite (p id : str) :
  contains FILE_D (p ++ removelast FILE_D) = false ->
  contains FILE_D (id ++ VIEW) = false ->
  contains VIEW (p ++ FILE_D ++ id ++ removelast VIEW) = false ->
  contains VIEW ((p ++ UC_ID ++ id) ++ removelast VIEW) = false.
Proof.
  intros Hp Hid Hv.
  assert (Hid' : contains FILE_D (id ++ removelast VIEW) = false).
  { destruct (contains FILE_D (id ++ removelast VIEW)) eqn:E; [|reflexivity].
    apply (contains_app_l _ _ [last VIEW 0%N]) in E.
    rewrite <- app_assoc, <- (app_removelast_last 0%N VIEW_nonempty) in E.
    congruence. }
  apply VIEW_absent_after_rewrite in Hv.
  rewrite replace_first in Hv by (exact FILE_D_nonempty || exact Hp).
  rewrite (@replace_absent FILE_D UC_ID (id ++ removelast VIEW)
             FILE_D_nonempty Hid') in Hv.
  rewrite <- !app_assoc. exact Hv.
Qed.

(** *** The claims about the normalizer *)

(** C3. On the two inputs of the specification:
    [fix_google_drive_url "https://drive.google.com/file/d/ABC123/view"] is
    the direct-download form ["https://drive.google.com/uc?id=ABC123"],
    which contains ["uc?id=ABC123"] and does not end in ["/view"], and
    [fix_google_drive_url "https://example.com/foo.zip"] is its input. *)
Theorem fix_google_drive_url_spec_examples :
  let fixed :=
    fix_google_drive_url (py "https://drive.google.com/file/d/ABC123/view") in
  fixed = py "https://drive.google.com/uc?id=ABC123" /\
  contains (py "uc?id=ABC123") fixed = true /\
  endswith VIEW fixed = false /\
  fix_google_drive_url (py "https://example.com/foo.zip")
  = py "https://example.com/foo.zip".
Proof. vm_compute. repeat split; reflexivity. Qed.

(** C8. The rewrite is triggered by a plain substring test: when
    ["drive.google.com"] occurs anywhere in the string the two
    replacements are applied, also when it occurs in the path, in the
    query or inside another host name such as ["notdrive.google.com"];
    when it occurs nowhere the string is returned exactly as given. *)
Theorem fix_google_drive_url_substring_test (url : str) :
  ((exists p q, url = p ++ DRIVE_HOST ++ q) ->
   fix_google_drive_url url = replace VIEW [] (replace FILE_D UC_ID url)) /\
  ((forall p q, url <> p ++ DRIVE_HOST ++ q) ->
   fix_google_drive_url url = url) /\
  fix_google_drive_url (py "https://notdrive.google.com/file/d/X/view")
  = py "https://notdrive.google.com/uc?id=X" /\
  fix_google_drive_url (py "https://example.com/drive.google.com/file/d/X/view")
  = py "https://example.com/drive.google.com/uc?id=X" /\
  fix_google_drive_url
    (py "https://example.com/file/d/X/view?ref=drive.google.com")
  = py "https://example.com/uc?id=X?ref=drive.google.com" /\
  fix_google_drive_url (py "https://example.com/file/d/X/view")
  = py "https://example.com/file/d/X/view".
Proof.
  split; [|split].
  - intros H. apply fix_on_drive. apply contains_iff. exact H.
  - intros H. apply fix_off_drive.
    destruct (contains DRIVE_HOST url) eqn:E; [|reflexivity].
    apply contains_iff in E as [p [q E]]. destruct (H p q E).
  - vm_compute. repeat split; reflexivity.
Qed.

(** C9. For every input containing ["drive.google.com"] the result is the
    input with every occurrence of ["/file/d/"] replaced by ["/uc?id="]
    and then every occurrence of ["/view"] removed, each replacement done
    whether or not the other pattern is present: without a ["/view"] the
    result is the ["/file/d/"] replacement alone, and without a
    ["/file/d/"] it is the ["/view"] removal alone, which removes a
    ["/view"] wherever it stands, whatever follows it, and goes on with
    the rest. *)
Theorem fix_google_drive_url_replaces_everywhere (url : str) :
  contains DRIVE_HOST url = true ->
  fix_google_drive_url url = replace VIEW [] (replace FILE_D UC_ID url) /\
  (contains VIEW url = false ->
   fix_google_drive_url url = replace FILE_D UC_ID url) /\
  (contains FILE_D url = false ->
   fix_google_drive_url url = replace VIEW [] url) /\
  (forall a b,
     url = a ++ FILE_D ++ b ->
     contains FILE_D (a ++ removelast FILE_D) = false ->
     replace FILE_D UC_ID url = a ++ UC_ID ++ replace FILE_D UC_ID b) /\
  (forall a b,
     url = a ++ VIEW ++ b ->
     contains FILE_D url = false ->
     contains VIEW (a ++ removelast VIEW) = false ->
     fix_google_drive_url url = a ++ replace VIEW [] b).
Proof.
  intros Hd. rewrite (fix_on_drive _ Hd). repeat split.
  - intros Hv. apply replace_absent; [exact VIEW_nonempty|].
    apply VIEW_absent_after_rewrite. exact Hv.
  - intros Hf. rewrite (@replace_absent FILE_D UC_ID url FILE_D_nonempty Hf).
    reflexivity.
  - intros a b -> Ha. apply replace_first; [exact FILE_D_nonempty | exact Ha].
  - intros a b Hu Hf Ha.
    rewrite (@replace_absent FILE_D UC_ID url FILE_D_nonempty Hf).
    rewrite Hu. rewrite replace_first by (exact VIEW_nonempty || exact Ha).
    reflexivity.
Qed.

Lemma fix_google_drive_url_replaces_everywhere_witness :
  fix_google_drive_url
    (py "https://drive.google.com/file/d/ABC123/view?usp=sharing")
  = py "https://drive.google.com/uc?id=ABC123?usp=sharing".
Proof.
  rewrite
    (proj1 (@fix_google_drive_url_replaces_everywhere
              (py "https://drive.google.com/file/d/ABC123/view?usp=sharing")
              eq_refl)).
  vm_compute. reflexivity.
Defined.

(** C2 as the specification words it, with the host of the URL deciding:
    a URL whose host is not the file-hosting service is changed all the
    same when the name of that host occurs in its path. *)
Lemma fix_google_drive_url_not_by_host :
  let url := py "https://example.com/drive.google.com/view" in
  UrlSpec.url_host url = Some (py "example.com") /\
  ~ UrlSpec.host_is_drive url /\
  fix_google_drive_url url = py "https://example.com/drive.google.com" /\
  fix_google_drive_url url <> url.
Proof.
  vm_compute. repeat split; try reflexivity; discriminate.
Qed.

(** Host names do not distinguish case, the substring test does: a URL
    whose host is the file-hosting service written in upper case is left
    as it is. *)
Lemma fix_google_drive_url_upper_case_host :
  let url := py "https://DRIVE.GOOGLE.COM/file/d/ABC123/view" in
  UrlSpec.host_is_drive url /\ fix_google_drive_url url = url.
Proof. vm_compute. split; reflexivity. Qed.

(** C2, amended.  The normalizer is a function of the URL string alone.
    For every URL in which ["drive.google.com"] occurs anywhere, spelled
    exactly so, which covers every URL whose host is written
    [drive.google.com] in lower case, the result is
    [url.replace("/file/d/", "/uc?id=").replace("/view", "")]; in
    particular a URL [p/file/d/ID/view] in which ["/file/d/"] occurs
    nowhere else and ["/view"] only at the end becomes [p/uc?id=ID].
    Every URL in which ["drive.google.com"] does not occur in that
    spelling is returned unchanged. *)
Theorem fix_google_drive_url_by_substring (url : str) :
  (UrlSpec.host_written_drive url -> contains DRIVE_HOST url = true) /\
  (contains DRIVE_HOST url = true ->
   fix_google_drive_url url = replace VIEW [] (replace FILE_D UC_ID url)) /\
  (contains DRIVE_HOST url = true ->
   forall p id,
     url = p ++ FILE_D ++ id ++ VIEW ->
     contains FILE_D (p ++ removelast FILE_D) = false ->
     contains FILE_D (id ++ VIEW) = false ->
     contains VIEW (p ++ FILE_D ++ id ++ removelast VIEW) = false ->
     fix_google_drive_url url = p ++ UC_ID ++ id) /\
  (contains DRIVE_HOST url = false -> fix_google_drive_url url = url).
Proof.
  split; [exact (@host_written_drive_contains url)|].
  split; [exact (@fix_on_drive url)|].
  split; [|exact (@fix_off_drive url)].
  intros Hd p id Hu Hp Hid Hv. rewrite (fix_on_drive _ Hd), Hu.
  pose proof (VIEW_only_at_end_after_rewrite _ _ Hp Hid Hv) as Hv'.
  rewrite replace_first by (exact FILE_D_nonempty || exact Hp).
  rewrite (@replace_absent FILE_D UC_ID (id ++ VIEW) FILE_D_nonempty Hid).
  replace (p ++ UC_ID ++ id ++ VIEW)
    with ((p ++ UC_ID ++ id) ++ VIEW ++ [])
    by (rewrite app_nil_r, <- !app_assoc; reflexivity).
  rewrite replace_first by (exact VIEW_nonempty || exact Hv').
  rewrite replace_nil. cbn [app]. rewrite app_nil_r. reflexivity.
Qed.

Lemma fix_google_drive_url_by_substring_witness :
  contains DRIVE_HOST (py "https://drive.google.com/file/d/ABC123/view")
  = true /\
  fix_google_drive_url (py "https://drive.google.com/file/d/ABC123/view")
  = py "https://drive.google.com" ++ UC_ID ++ py "ABC123".
Proof.
  destruct (fix_google_drive_url_by_substring
              (py "https://drive.google.com/file/d/ABC123/view"))
    as (Hhost & _ & Hform & _).
  split.
  - exact (Hhost eq_refl).
  - exact (Hform eq_refl (py "https://drive.google.com") (py "ABC123")
             eq_refl eq_refl eq_refl eq_refl).
Defined.

Lemma fix_google_drive_url_substring_test_witness :
  fix_google_drive_url (py "https://notdrive.google.com/file/d/X/view")
  = replace VIEW []
      (replace FILE_D UC_ID (py "https://notdrive.google.com/file/d/X/view")).
Proof.
  apply (proj1 (fix_google_drive_url_substring_test
                  (py "https://notdrive.google.com/file/d/X/view"))).
  exists (py "https://not"), (py "/file/d/X/view"). reflexivity.
Defined.

End Normalizer.

(** ** Trimming and line splitting *)

Module LinesFacts.

Import PyStrFacts.

Lemma lstrip_spaces (s : str) : forallb isspace s = true -> lstrip s = [].
Proof.
  induction s as [|c s IH]; simpl; [reflexivity|].
  intros H. apply andb_true_iff in H as [-> H]. auto.
Qed.

(** [lstrip] drops a prefix of white space and stops at a character that
    is none. *)
Lemma lstrip_split (s : str) :
  exists w, s = w ++ lstrip s /\ forallb isspace w = true /\
            match lstrip s with [] => True | c :: _ => isspace c = false end.
Proof.
  induction s as [|c s (w & Hs & Hw & Hc)]; simpl.
  - exists []. auto.
  - destruct (isspace c) eqn:E.
    + exists (c :: w). simpl. rewrite E, Hw. rewrite <- Hs. auto.
    + exists []. auto.
Qed.

Lemma lstrip_fixed (s : str) :
  match s with [] => True | c :: _ => isspace c = false end -> lstrip s = s.
Proof. destruct s as [|c s]; simpl; [reflexivity | intros ->; reflexivity]. Qed.

Lemma lstrip_idempotent (s : str) : lstrip (lstrip s) = lstrip s.
Proof.
  destruct (lstrip_split s) as (w & _ & _ & H). apply lstrip_fixed. exact H.
Qed.

Lemma rstrip_split (s : str) :
  exists w, s = rstrip s ++ w /\ forallb isspace w = true.
Proof.
  unfold rstrip. destruct (lstrip_split (rev s)) as (w & Hs & Hw & _).
  exists (rev w). split.
  - rewrite <- rev_app_distr, <- Hs, rev_involutive. reflexivity.
  - rewrite forallb_forall in *. intros x Hx. apply Hw, in_rev, Hx.
Qed.

Lemma rstrip_idempotent (s : str) : rstrip (rstrip s) = rstrip s.
Proof.
  unfold rstrip. rewrite rev_involutive, lstrip_idempotent. reflexivity.
Qed.

(** Trimming on the right keeps a first character that is no white
    space. *)
Lemma rstrip_head (s : str) :
  match s with [] => True | c :: _ => isspace c = false end ->
  match rstrip s with [] => True | c :: _ => isspace c = false end.
Proof.
  destruct (rstrip_split s) as (w & Hs & Hw).
  destruct (rstrip s) as [|c r]; [trivial|].
  rewrite Hs. simpl. trivial.
Qed.

Lemma strip_idempotent (s : str) : strip (strip s) = strip s.
Proof.
  unfold strip.
  rewrite (lstrip_fixed (rstrip (lstrip s))).
  - apply rstrip_idempotent.
  - apply rstrip_head. destruct (lstrip_split s) as (w & _ & _ & H). exact H.
Qed.

Lemma strip_spaces (s : str) : forallb isspace s = true -> strip s = [].
Proof.
  intros H. unfold strip. rewrite lstrip_spaces by exact H. reflexivity.
Qed.

(** A line is dropped exactly when trimming leaves nothing of it. *)
Lemma clean_lines_nil (lines : list str) :
  clean_lines lines = [] <-> Forall (fun line => strip line = []) lines.
Proof.
  unfold clean_lines. induction lines as [|l ls IH]; simpl.
  - split; auto.
  - destruct (str_eqb (strip l) []) eqn:E; simpl.
    + rewrite IH. apply str_eqb_eq in E. split.
      * intros H. constructor; assumption.
      * intros H. inversion H. assumption.
    + split; [discriminate|]. intros H. inversion H as [|? ? Hl _].
      apply str_eqb_eq in Hl. congruence.
Qed.

Lemma clean_lines_length (lines : list str) :
  List.length (clean_lines lines)
  = List.length (filter (fun line => negb (str_eqb (strip line) [])) lines).
Proof. unfold clean_lines. apply length_map. Qed.

Lemma clean_lines_stripped (lines : list str) :
  map strip (clean_lines lines) = clean_lines lines.
Proof.
  unfold clean_lines. rewrite map_map. apply map_ext.
  intros l. apply strip_idempotent.
Qed.

Lemma translate_newlines_spaces (s : str) :
  forallb isspace s = true -> forallb isspace (translate_newlines s) = true.
Proof.
  induction s as [|c s IH]; [reflexivity|].
  intros H. simpl in H. apply andb_true_iff in H as [Hc Hs].
  specialize (IH Hs). simpl.
  destruct (c =? CR)%N.
  - destruct s as [|d s]; [reflexivity|].
    destruct (d =? LF)%N; [exact IH|].
    change (isspace LF && forallb isspace (translate_newlines (d :: s)) = true).
    rewrite IH. reflexivity.
  - simpl. rewrite Hc. exact IH.
Qed.

Lemma split_keepends_spaces (s : str) :
  forallb isspace s = true ->
  Forall (fun line => forallb isspace line = true) (split_keepends s).
Proof.
  induction s as [|c s IH]; [constructor|].
  intros H. simpl in H. apply andb_true_iff in H as [Hc Hs].
  specialize (IH Hs). simpl.
  destruct (c =? LF)%N.
  - constructor; [simpl; rewrite Hc; reflexivity | exact IH].
  - destruct (split_keepends s) as [|l ls].
    + constructor; [simpl; rewrite Hc; reflexivity | constructor].
    + inversion IH as [|? ? Hl Hls]. constructor; [|exact Hls].
      simpl. rewrite Hc. exact Hl.
Qed.

(** A text of white space only, the empty text included, has only blank
    lines. *)
Lemma readlines_spaces (text : str) :
  forallb isspace text = true ->
  Forall (fun line => strip line = []) (readlines text).
Proof.
  intros H. unfold readlines.
  apply translate_newlines_spaces, split_keepends_spaces in H.
  eapply Forall_impl; [|exact H]. intros l. apply strip_spaces.
Qed.

Example clean_lines_example :
  clean_lines (readlines Sample.links_text)
  = [py "https://drive.google.com/file/d/ABC123/view"; py "not a url";
     py "https://example.com/foo.zip"].
Proof. vm_compute. reflexivity. Qed.

End LinesFacts.

(** ** Runs of the worker *)

Module Run.

Import PyStrFacts LinesFacts.

Lemma levels_get_INFO : levels_get INFO = INFO.
Proof. reflexivity. Qed.

Lemma levels_get_ERROR : levels_get ERROR = ERROR.
Proof. reflexivity. Qed.

Lemma levels_get_WARNING : levels_get WARNING = WARNING.
Proof. reflexivity. Qed.

Lemma attempted_app (cs ds : list call) :
  attempted (cs ++ ds) = attempted cs ++ attempted ds.
Proof. unfold attempted. apply flat_map_app. Qed.

Lemma downloads_made_app (cs ds : list call) :
  downloads_made (cs ++ ds) = downloads_made cs + downloads_made ds.
Proof. unfold downloads_made. rewrite filter_app, length_app. reflexivity. Qed.

Lemma count_level_app (l : str) (xs ys : list entry) :
  count_level l (xs ++ ys) = count_level l xs + count_level l ys.
Proof. unfold count_level. rewrite filter_app, length_app. reflexivity. Qed.

Lemma count_entry_app (e : entry) (xs ys : list entry) :
  count_entry e (xs ++ ys) = count_entry e xs + count_entry e ys.
Proof. unfold count_entry. rewrite filter_app, length_app. reflexivity. Qed.

Lemma enumerate_cons {A} (x : A) (xs : list A) (start : nat) :
  enumerate (x :: xs) start = (start, x) :: enumerate xs (S start).
Proof. reflexivity. Qed.

Lemma enumerate_map {A B} (f : A -> B) (xs : list A) (start : nat) :
  enumerate (map f xs) start
  = map (fun item => (fst item, f (snd item))) (enumerate xs start).
Proof.
  revert start; induction xs as [|x xs IH]; intros start; [reflexivity|].
  simpl map. rewrite !enumerate_cons. simpl. rewrite IH. reflexivity.
Qed.

Lemma enumerate_snd {A} (xs : list A) (start : nat) :
  map snd (enumerate xs start) = xs.
Proof.
  revert start; induction xs as [|x xs IH]; intros start; [reflexivity|].
  rewrite enumerate_cons. simpl. rewrite IH. reflexivity.
Qed.

(** *** Statements only add to the record of calls *)

Lemma appends_ret {A} (a : A) : appends_calls (ret a).
Proof. intros p. exists []. cbn. rewrite app_nil_r. reflexivity. Qed.

Lemma appends_return_ {A} : appends_calls (@return_ A).
Proof. intros p. exists []. cbn. rewrite app_nil_r. reflexivity. Qed.

Lemma appends_log_message (message level : str) :
  appends_calls (log_message message level).
Proof. intros p. exists []. cbn. rewrite app_nil_r. reflexivity. Qed.

(** After [m], the rest of a sequence only adds calls to those of [m]. *)
Lemma bind_calls_prefix {A B} (m : M A) (k : A -> M B) (p : proc) :
  (forall a, appends_calls (k a)) ->
  exists more, calls (fst (bind m k p)) = calls (fst (m p)) ++ more.
Proof.
  intros Hk. unfold bind. destruct (m p) as [p' [a | e |]]; cbn [fst].
  - apply Hk.
  - exists []. cbn. rewrite app_nil_r. reflexivity.
  - exists []. cbn. rewrite app_nil_r. reflexivity.
Qed.

Lemma appends_bind {A B} (m : M A) (k : A -> M B) :
  appends_calls m -> (forall a, appends_calls (k a)) ->
  appends_calls (bind m k).
Proof.
  intros Hm Hk p.
  destruct (bind_calls_prefix m k p Hk) as [more2 H2].
  destruct (Hm p) as [more1 H1].
  exists (more1 ++ more2). rewrite H2, H1, app_assoc. reflexivity.
Qed.

Lemma appends_when (c : bool) (body : M unit) :
  appends_calls body -> appends_calls (when c body).
Proof. destruct c; [trivial | intros _; apply appends_ret]. Qed.

Lemma appends_handle {A} (handlers : list (list pyclass * (exn -> M A)))
      (e : exn) :
  Forall (fun h => forall e', appends_calls (snd h e')) handlers ->
  appends_calls (handle handlers e).
Proof.
  induction 1 as [|[classes h] rest Hh _ IH]; cbn [handle].
  - intros p. exists []. cbn. rewrite app_nil_r. reflexivity.
  - destruct (existsb (isinstance e) classes); [apply Hh | exact IH].
Qed.

Lemma appends_try_except {A} (body : M A)
      (handlers : list (list pyclass * (exn -> M A))) :
  appends_calls body ->
  Forall (fun h => forall e, appends_calls (snd h e)) handlers ->
  appends_calls (try_except body handlers).
Proof.
  intros Hb Hh p. unfold try_except.
  destruct (Hb p) as [more1 H1].
  destruct (body p) as [p' [a | e |]]; cbn [fst] in *.
  - exists more1. exact H1.
  - destruct (appends_handle e Hh p') as [more2 H2].
    exists (more1 ++ more2). rewrite H2, H1, app_assoc. reflexivity.
  - exists more1. exact H1.
Qed.

Lemma appends_for_each {A} (xs : list A) (body : A -> M unit) :
  (forall x, appends_calls (body x)) -> appends_calls (for_each xs body).
Proof.
  intros Hb. induction xs as [|x xs IH]; cbn [for_each].
  - apply appends_ret.
  - apply appends_bind; [apply Hb | intros _; exact IH].
Qed.

Section OneWorld.

Variable W : world.
Variables links_file_path output_directory_path : str.


Local Arguments py : simpl never.
Local Arguments str_of_nat : simpl never.
Local Arguments fix_google_drive_url : simpl never.
Local Arguments strip : simpl never.

(** One turn of the loop: one download, made from the output directory,
    and two lines of log, whatever the download does. *)
Lemma download_item_run (total i : nat) (line : str) (p : proc) :
  download_failures_are_errors W ->
  cwd p = out_dir W output_directory_path ->
  S (downloads_made (calls p)) = i ->
  let u := fix_google_drive_url (strip line) in
  download_item W total (i, line) p
  = ({| cwd := cwd p;
        calls := calls p
                 ++ [Download (out_dir W output_directory_path) u false true];
        log_text := log_text p
                    ++ item_entries W output_directory_path total (i, u) |},
     Normal tt).
Proof.
  intros Herr Hcwd Hi u.
  unfold download_item, try_except, bind, download, log_message.
  fold u. unfold add_entry, add_call. cbn [calls cwd log_text].
  rewrite Hi, Hcwd.
  change (levels_get INFO) with INFO. change (levels_get ERROR) with ERROR.
  unfold item_entries, outcome_entry, downloading_entry.
  cbn [fst snd].
  destruct (download_result W i (out_dir W output_directory_path) u)
    as [[]|e] eqn:E.
  - unfold add_entry, add_call. cbn [cwd calls log_text].
    rewrite <- app_assoc. reflexivity.
  - unfold error_entry. cbn [handle existsb].
    rewrite !orb_false_r.
    destruct (isinstance e MissingSchema);
      [unfold add_entry, add_call; cbn [cwd calls log_text];
       rewrite <- app_assoc; reflexivity|].
    destruct (isinstance e RequestException);
      [unfold add_entry, add_call; cbn [cwd calls log_text];
       rewrite <- app_assoc; reflexivity|].
    rewrite (Herr _ _ _ _ E).
    unfold add_entry, add_call; cbn [cwd calls log_text].
    rewrite <- app_assoc. reflexivity.
Qed.

(** The loop: every line is attempted in turn and the loop ends
    normally. *)
Lemma download_loop_run (total : nat) (lines : list str) :
  download_failures_are_errors W ->
  forall (start : nat) (p : proc),
    cwd p = out_dir W output_directory_path ->
    S (downloads_made (calls p)) = start ->
    let urls := map (fun line => fix_google_drive_url (strip line)) lines in
    for_each (enumerate lines start) (download_item W total) p
    = ({| cwd := cwd p;
          calls := calls p
                   ++ map (fun u => Download (out_dir W output_directory_path)
                                             u false true) urls;
          log_text := log_text p
                      ++ flat_map (item_entries W output_directory_path total)
                                  (enumerate urls start) |},
       Normal tt).
Proof.
  intros Herr. induction lines as [|line lines IH]; intros start p Hcwd Hstart.
  - cbn. rewrite !app_nil_r. destruct p; reflexivity.
  - cbn zeta. simpl map. rewrite !enumerate_cons.
    cbn [for_each]. unfold bind at 1.
    rewrite (download_item_run total line p Herr Hcwd Hstart).
    cbn zeta in IH. rewrite IH.
    + cbn [cwd calls log_text flat_map map].
      rewrite <- !app_assoc. reflexivity.
    + exact Hcwd.
    + cbn [calls]. rewrite downloads_made_app. cbn. lia.
Qed.


Ltac run_worker :=
  unfold google_drive_bulk_download, call_function,
    google_drive_bulk_download_body, initial, bind, os_chdir, is_file, mkdir,
    open_readlines, try_except, when, log_message, return_, ret,
    add_call, add_entry, set_cwd;
  cbn [cwd calls log_text app fst snd].

(** C5. When the links-file path does not name an existing file, the run
    logs exactly one entry, an ERROR naming the path, and returns: nothing
    is downloaded, no directory is created, no file is read. *)
Theorem missing_links_file_aborts :
  reaches_validation W ->
  is_file_result W (abspath W (app_dir W) links_file_path) = Ok false ->
  let run := google_drive_bulk_download W links_file_path
               output_directory_path in
  snd run = Ok tt /\
  log_text (fst run)
  = [{| level := ERROR;
        message := py "The file '" ++ links_file_path
                     ++ py "' does not exist!" |}] /\
  count_level ERROR (log_text (fst run)) = 1 /\
  attempted (calls (fst run)) = [] /\
  filter is_mkdir (calls (fst run)) = [] /\
  filter is_open_read (calls (fst run)) = [] /\
  calls (fst run)
  = [Chdir (app_dir W); IsFile (abspath W (app_dir W) links_file_path)].
Proof.
  unfold reaches_validation, app_dir. intros Hcd Hfile.
  run_worker. rewrite Hcd. cbn [cwd calls log_text app fst snd].
  rewrite Hfile. cbn [negb cwd calls log_text app fst snd].
  change (levels_get ERROR) with ERROR.
  repeat split; reflexivity.
Qed.


(** C7. When creating the output directory, or changing into it, fails
    with an [OSError] (a [PermissionError] is one), the run logs exactly
    one entry, an ERROR, and returns: nothing is downloaded and the links
    file is never read. *)
Theorem output_directory_failure_aborts (e : exn) :
  output_setup_fails W links_file_path output_directory_path e ->
  isinstance e OSError = true \/ isinstance e PermissionError = true ->
  let run := google_drive_bulk_download W links_file_path
               output_directory_path in
  snd run = Ok tt /\
  log_text (fst run)
  = [{| level := ERROR;
        message := py "Failed to set output directory '"
                     ++ output_directory_path ++ py "': " ++ exn_str e |}] /\
  count_level ERROR (log_text (fst run)) = 1 /\
  attempted (calls (fst run)) = [] /\
  filter is_open_read (calls (fst run)) = [].
Proof.
  unfold output_setup_fails, reaches_output_setup, reaches_validation,
    out_dir, app_dir.
  intros [[Hcd Hfile] Hfail] Hclass.
  assert (Hcatch : existsb (isinstance e) [OSError; PermissionError] = true).
  { cbn [existsb]. destruct Hclass as [-> | ->]; [reflexivity|].
    rewrite orb_true_r. reflexivity. }
  run_worker. rewrite Hcd. cbn [cwd calls log_text app fst snd].
  rewrite Hfile. cbn [negb cwd calls log_text app fst snd].
  destruct Hfail as [Hmk | [Hmk Hcd2]].
  - rewrite Hmk. cbn [handle]. rewrite Hcatch.
    cbn [cwd calls log_text app fst snd].
    change (levels_get ERROR) with ERROR.
    repeat split; reflexivity.
  - rewrite Hmk. cbn [cwd calls log_text app fst snd].
    rewrite Hcd2. cbn [handle]. rewrite Hcatch.
    cbn [cwd calls log_text app fst snd].
    change (levels_get ERROR) with ERROR.
    repeat split; reflexivity.
Qed.

(** C6. When the links file is empty or has only blank lines, the run
    logs exactly one entry, a WARNING, and returns: nothing is downloaded
    and neither the "started" nor the "finished" message is logged. *)
Theorem blank_links_file_warns (text : str) :
  links_read W links_file_path output_directory_path text ->
  Forall (fun line => forallb isspace line = true) (readlines text) ->
  let run := google_drive_bulk_download W links_file_path
               output_directory_path in
  snd run = Ok tt /\
  log_text (fst run)
  = [{| level := WARNING;
        message := py "No valid URLs found in the file!" |}] /\
  count_level WARNING (log_text (fst run)) = 1 /\
  attempted (calls (fst run)) = [] /\
  count_entry started_entry (log_text (fst run)) = 0 /\
  count_entry finished_entry (log_text (fst run)) = 0.
Proof.
  unfold links_read, reaches_reading, reaches_output_setup,
    reaches_validation, out_dir, app_dir.
  intros [[[Hcd Hfile] [Hmk Hcd2]] Hread] Hblank.
  assert (Hnil : clean_lines (readlines text) = []).
  { apply clean_lines_nil. eapply Forall_impl; [|exact Hblank].
    intros line. apply strip_spaces. }
  run_worker. rewrite Hcd. cbn [cwd calls log_text app fst snd].
  rewrite Hfile. cbn [negb cwd calls log_text app fst snd].
  rewrite Hmk. cbn [cwd calls log_text app fst snd].
  rewrite Hcd2. cbn [cwd calls log_text app fst snd].
  rewrite Hread. cbn [cwd calls log_text app fst snd].
  rewrite Hnil. cbn [cwd calls log_text app fst snd].
  change (levels_get WARNING) with WARNING.
  repeat split; reflexivity.
Qed.


Lemma attempted_downloads (d : str) (urls : list str) :
  attempted (map (fun u => Download d u false true) urls) = urls.
Proof.
  induction urls as [|u urls IH]; [reflexivity|].
  cbn. f_equal. exact IH.
Qed.

Lemma download_urls_normalized (text : str) :
  download_urls text
  = map fix_google_drive_url (clean_lines (readlines text)).
Proof.
  unfold download_urls.
  rewrite <- (clean_lines_stripped (readlines text)) at 2.
  rewrite map_map. reflexivity.
Qed.

(** A run that reaches the loop, from its first call to its last line of
    log. *)
Lemma run_through_loop (text : str) :
  reaches_loop W links_file_path output_directory_path text ->
  download_failures_are_errors W ->
  google_drive_bulk_download W links_file_path output_directory_path
  = ({| cwd := (out_dir W output_directory_path);
        calls := [Chdir (app_dir W);
                  IsFile (abspath W (app_dir W) links_file_path);
                  Mkdir (out_dir W output_directory_path);
                  Chdir (out_dir W output_directory_path);
                  OpenRead (abspath W (out_dir W output_directory_path)
                              links_file_path)]
                 ++ map (fun u => Download (out_dir W output_directory_path)
                                           u false true)
                        (download_urls text);
        log_text := [started_entry]
                    ++ flat_map (item_entries W output_directory_path
                   (List.length (download_urls text)))
                                (download_items text)
                    ++ [finished_entry] |},
     Ok tt).
Proof.
  unfold reaches_loop, links_read, reaches_reading, reaches_output_setup,
    reaches_validation, download_items, download_urls, out_dir, app_dir.
  intros [[[[Hcd Hfile] [Hmk Hcd2]] Hread] Hlines] Herr.
  rewrite length_map.
  run_worker. rewrite Hcd. cbn [cwd calls log_text app fst snd].
  rewrite Hfile. cbn [negb cwd calls log_text app fst snd].
  rewrite Hmk. cbn [cwd calls log_text app fst snd].
  rewrite Hcd2. cbn [cwd calls log_text app fst snd].
  rewrite Hread. cbn [cwd calls log_text app fst snd].
  destruct (clean_lines (readlines text)) as [|l ls] eqn:E; [congruence|].
  rewrite (download_loop_run _ (l :: ls) Herr); [|reflexivity|reflexivity].
  cbn [cwd calls log_text].
  change (levels_get INFO) with INFO.
  unfold out_dir, app_dir, started_entry, finished_entry.
  rewrite <- !app_assoc. reflexivity.
Qed.

(** The conditions of [reaches_loop] are met by every run that logs the
    "started" line: no other run gets as far as the loop. *)
Lemma started_only_in_loop :
  In started_entry
     (log_text (fst (google_drive_bulk_download W links_file_path
                       output_directory_path))) ->
  exists text, reaches_loop W links_file_path output_directory_path text.
Proof.
  unfold reaches_loop, links_read, reaches_reading, reaches_output_setup,
    reaches_validation, out_dir, app_dir.
  run_worker.
  destruct (chdir_result W (abspath W (launch_dir W) (application_path W)))
    as [[]|e1] eqn:H1; cbn [cwd calls log_text app fst snd];
    [|intros []].
  destruct (is_file_result W
              (abspath W (abspath W (launch_dir W) (application_path W))
                 links_file_path))
    as [[|]|e2] eqn:H2; cbn [negb cwd calls log_text app fst snd];
    [| intros [H|[]]; apply (f_equal level) in H; vm_compute in H;
       discriminate H
     | intros [] ].
  destruct (mkdir_result W
              (abspath W (abspath W (launch_dir W) (application_path W))
                 output_directory_path))
    as [[]|e3] eqn:H3; cbn [handle cwd calls log_text app fst snd].
  2:{ destruct (existsb (isinstance e3) [OSError; PermissionError]);
        cbn [cwd calls log_text app fst snd];
        [ intros [H|[]]; apply (f_equal level) in H; vm_compute in H;
          discriminate H
        | intros [] ]. }
  destruct (chdir_result W
              (abspath W (abspath W (launch_dir W) (application_path W))
                 output_directory_path))
    as [[]|e4] eqn:H4; cbn [handle cwd calls log_text app fst snd].
  2:{ destruct (existsb (isinstance e4) [OSError; PermissionError]);
        cbn [cwd calls log_text app fst snd];
        [ intros [H|[]]; apply (f_equal level) in H; vm_compute in H;
          discriminate H
        | intros [] ]. }
  destruct (read_result W
              (abspath W
                 (abspath W (abspath W (launch_dir W) (application_path W))
                    output_directory_path) links_file_path))
    as [text|e5] eqn:H5; cbn [handle cwd calls log_text app fst snd].
  2:{ destruct (existsb (isinstance e5) [IOError; UnicodeDecodeError]);
        cbn [cwd calls log_text app fst snd];
        [ intros [H|[]]; apply (f_equal level) in H; vm_compute in H;
          discriminate H
        | intros [] ]. }
  destruct (clean_lines (readlines text)) as [|l ls] eqn:E;
    cbn [cwd calls log_text app fst snd].
  - intros [H|[]]; apply (f_equal level) in H; vm_compute in H;
      discriminate H.
  - intros _. exists text. rewrite E. repeat split; try reflexivity.
    discriminate.
Qed.

(** C1. A run that reaches the download loop attempts exactly one
    download per non-blank line of the links file, for the trimmed and
    normalized line, in the order of the file, whatever the outcome of
    each download. *)
Theorem one_download_per_line_in_order (text : str) :
  reaches_loop W links_file_path output_directory_path text ->
  download_failures_are_errors W ->
  let run := google_drive_bulk_download W links_file_path
               output_directory_path in
  let nonblank :=
    filter (fun line => negb (str_eqb (strip line) [])) (readlines text) in
  attempted (calls (fst run))
  = map (fun line => fix_google_drive_url (strip line)) nonblank /\
  List.length (attempted (calls (fst run))) = List.length nonblank /\
  filter is_download (calls (fst run))
  = map (fun u => Download (out_dir W output_directory_path) u false true)
        (attempted (calls (fst run))).
Proof.
  intros Hloop Herr. rewrite (run_through_loop Hloop Herr).
  cbn [fst calls]. rewrite attempted_app, attempted_downloads.
  rewrite filter_app.
  assert (Hf : forall us,
             filter is_download
               (map (fun u => Download (out_dir W output_directory_path)
                                       u false true) us)
             = map (fun u => Download (out_dir W output_directory_path)
                                      u false true) us).
  { induction us as [|u us IH]; [reflexivity|]. cbn. f_equal. exact IH. }
  rewrite Hf. cbn [attempted flat_map filter is_download app].
  unfold download_urls, clean_lines. rewrite map_map, length_map.
  rewrite (map_ext (fun line => fix_google_drive_url (strip (strip line)))
                   (fun line => fix_google_drive_url (strip line)))
    by (intros line; rewrite strip_idempotent; reflexivity).
  repeat split; reflexivity.
Qed.


Lemma error_entry_level (u : str) (e : exn) : level (error_entry u e) = ERROR.
Proof.
  unfold error_entry.
  destruct (isinstance e MissingSchema); [reflexivity|].
  destruct (isinstance e RequestException); reflexivity.
Qed.

(** An item leaves one ERROR line when its download fails and none when
    it succeeds. *)
Lemma count_ERROR_item (total : nat) (item : nat * str) :
  count_level ERROR (item_entries W output_directory_path total item)
  = if download_fails W output_directory_path item then 1 else 0.
Proof.
  unfold item_entries, outcome_entry, download_fails.
  unfold count_level. cbn [filter].
  change (has_level ERROR (downloading_entry total item)) with false.
  cbn iota.
  destruct (download_result W (fst item) (out_dir W output_directory_path)
              (snd item)) as [[]|e].
  - reflexivity.
  - unfold has_level. rewrite error_entry_level. reflexivity.
Qed.

Lemma count_ERROR_items (total : nat) (items : list (nat * str)) :
  count_level ERROR
    (flat_map (item_entries W output_directory_path total) items)
  = List.length (filter (download_fails W output_directory_path) items).
Proof.
  induction items as [|item items IH]; [reflexivity|].
  cbn [flat_map filter]. rewrite count_level_app, count_ERROR_item, IH.
  destruct (download_fails W output_directory_path item); reflexivity.
Qed.

(** No line of an item is the "finished" line. *)
Lemma count_finished_items (total : nat) (items : list (nat * str)) :
  count_entry finished_entry
    (flat_map (item_entries W output_directory_path total) items) = 0.
Proof.
  induction items as [|item items IH]; [reflexivity|].
  cbn [flat_map]. rewrite count_entry_app, IH, Nat.add_0_r.
  unfold item_entries, count_entry. cbn [filter].
  assert (H1 : entry_eqb finished_entry (downloading_entry total item) = false)
    by reflexivity.
  assert (H2 : entry_eqb finished_entry
                 (outcome_entry W output_directory_path item) = false).
  { unfold outcome_entry.
    destruct (download_result W (fst item) (out_dir W output_directory_path)
                (snd item)) as [[]|e]; [reflexivity|].
    unfold entry_eqb. rewrite error_entry_level. reflexivity. }
  rewrite H1, H2. reflexivity.
Qed.

(** C4. In a run that reaches the loop every failure of a download is
    caught where it happens and leaves exactly one ERROR line: for a
    malformed URL a line naming the URL, for a network error and for any
    other error a line with the text of the error.  Every item is
    attempted whatever happened to the ones before it, and the "finished"
    line is logged exactly once, last, however many items failed. *)
Theorem item_failures_are_logged_and_passed_over (text : str) :
  reaches_loop W links_file_path output_directory_path text ->
  download_failures_are_errors W ->
  let run := google_drive_bulk_download W links_file_path
               output_directory_path in
  let log := log_text (fst run) in
  let items := download_items text in
  snd run = Ok tt /\
  attempted (calls (fst run)) = map snd items /\
  log = [started_entry]
        ++ flat_map (item_entries W output_directory_path (List.length items))
                    items
        ++ [finished_entry] /\
  count_level ERROR log
  = List.length (filter (download_fails W output_directory_path) items) /\
  (forall item e,
     In item items ->
     download_result W (fst item) (out_dir W output_directory_path) (snd item)
     = Raise e ->
     (isinstance e MissingSchema = true ->
      In (invalid_url_entry (snd item)) log) /\
     (isinstance e MissingSchema = false ->
      isinstance e RequestException = true ->
      In (network_error_entry (snd item) e) log) /\
     (isinstance e MissingSchema = false ->
      isinstance e RequestException = false ->
      In (unexpected_error_entry (snd item) e) log)) /\
  count_entry finished_entry log = 1 /\
  last log started_entry = finished_entry.
Proof.
  intros Hloop Herr. rewrite (run_through_loop Hloop Herr).
  cbn [fst snd calls log_text].
  assert (Hlen : List.length (download_items text)
                 = List.length (download_urls text)).
  { unfold download_items.
    rewrite <- (enumerate_snd (download_urls text) 1) at 2.
    rewrite length_map. reflexivity. }
  rewrite Hlen.
  split; [reflexivity|].
  split.
  { rewrite attempted_app, attempted_downloads.
    unfold download_items. rewrite enumerate_snd. reflexivity. }
  split; [reflexivity|].
  split.
  { rewrite !count_level_app, count_ERROR_items.
    change (count_level ERROR [started_entry]) with 0.
    change (count_level ERROR [finished_entry]) with 0. lia. }
  split.
  { intros item e Hin Hraise.
    assert (Hentry : In (error_entry (snd item) e)
                        ([started_entry]
                         ++ flat_map (item_entries W output_directory_path
                   (List.length (download_urls text)))
                                     (download_items text)
                         ++ [finished_entry])).
    { apply in_or_app. right. apply in_or_app. left.
      apply in_flat_map. exists item. split; [exact Hin|].
      unfold item_entries, outcome_entry. rewrite Hraise.
      right. left. reflexivity. }
    unfold error_entry in Hentry.
    repeat split.
    - intros H1. rewrite H1 in Hentry. exact Hentry.
    - intros H1 H2. rewrite H1, H2 in Hentry. exact Hentry.
    - intros H1 H2. rewrite H1, H2 in Hentry. exact Hentry. }
  split.
  { rewrite !count_entry_app, count_finished_items.
    change (count_entry finished_entry [started_entry]) with 0.
    change (count_entry finished_entry [finished_entry]) with 1. lia. }
  rewrite app_assoc. apply last_last.
Qed.


Lemma appends_os_chdir (path : str) : appends_calls (os_chdir W path).
Proof.
  intros p. unfold os_chdir.
  destruct (chdir_result W (abspath W (cwd p) path));
    eexists; reflexivity.
Qed.

Lemma appends_is_file (path : str) : appends_calls (is_file W path).
Proof.
  intros p. unfold is_file.
  destruct (is_file_result W (abspath W (cwd p) path));
    eexists; reflexivity.
Qed.

Lemma appends_mkdir (path : str) : appends_calls (mkdir W path).
Proof.
  intros p. unfold mkdir.
  destruct (mkdir_result W (abspath W (cwd p) path));
    eexists; reflexivity.
Qed.

Lemma appends_open_readlines (path : str) :
  appends_calls (open_readlines W path).
Proof.
  intros p. unfold open_readlines.
  destruct (read_result W (abspath W (cwd p) path));
    eexists; reflexivity.
Qed.

Lemma appends_download (url : str) (quiet fuzzy : bool) :
  appends_calls (download W url quiet fuzzy).
Proof.
  intros p. unfold download.
  destruct (download_result W (S (downloads_made (calls p))) (cwd p) url);
    eexists; reflexivity.
Qed.

Ltac appends :=
  repeat first
    [ apply appends_ret | apply appends_return_ | apply appends_log_message
    | apply appends_os_chdir | apply appends_is_file | apply appends_mkdir
    | apply appends_open_readlines | apply appends_download
    | apply appends_when
    | apply appends_bind; [|intros ?]
    | apply appends_try_except
    | apply Forall_cons; [cbn [snd]; intros ?|]
    | apply Forall_nil ].

Lemma appends_download_item (total : nat) (item : nat * str) :
  appends_calls (download_item W total item).
Proof. destruct item as [i url_raw]. unfold download_item. appends. Qed.

(** C10. The first thing the worker does is to change the working
    directory to the application's directory, [sys._MEIPASS] in a frozen
    build and the directory of the script otherwise; the links-file path
    is looked up after that, so that a relative path is resolved against
    the application's directory and not against the directory the
    program was launched from. *)
Theorem working_directory_set_before_validation :
  (forall d, abspath W d (application_path W) = application_path W) ->
  chdir_result W (application_path W) = Ok tt ->
  let run := google_drive_bulk_download W links_file_path
               output_directory_path in
  application_path W = (if sys_frozen W then sys_MEIPASS W else script_dir W)
  /\
  exists rest,
    calls (fst run)
    = Chdir (application_path W)
        :: IsFile (abspath W (application_path W) links_file_path)
        :: rest.
Proof.
  intros Habs Hcd. split; [reflexivity|].
  cbv zeta.
  unfold google_drive_bulk_download, call_function.
  assert (Hfst : forall r : proc * signal unit,
             fst (match r with
                  | (p', Normal _) | (p', Returned) => (p', Ok tt)
                  | (p', Raised e) => (p', Raise e)
                  end) = fst r).
  { intros [p' [a | e |]]; reflexivity. }
  rewrite Hfst. unfold google_drive_bulk_download_body.
  unfold bind at 1. unfold os_chdir at 1. unfold initial at 1 2 3.
  cbn [cwd]. rewrite Habs, Hcd.
  match goal with
  | |- context [bind (is_file W ?l) ?k ?p] =>
      destruct (@bind_calls_prefix _ _ (is_file W l) k p) as [rest Hrest]
  end.
  - intros is_a_file. cbv zeta. appends.
    apply appends_for_each. apply appends_download_item.
  - exists rest. rewrite Hrest. unfold is_file, set_cwd, add_call.
    cbn [cwd calls app].
    destruct (is_file_result W
                (abspath W (application_path W) links_file_path));
      reflexivity.
Qed.

End OneWorld.

(** *** The theorems at the sample surroundings *)

Lemma usual_reaches_loop :
  reaches_loop Sample.usual Sample.links_txt Sample.out_path
               Sample.links_text.
Proof.
  repeat split; try reflexivity. vm_compute. discriminate.
Qed.

Lemma usual_failures_are_errors : download_failures_are_errors Sample.usual.
Proof.
  intros i d u e H. cbn in H. unfold Sample.downloads in H.
  destruct i as [|[|[|[|i]]]]; try discriminate;
    injection H as <-; reflexivity.
Qed.

Lemma one_download_per_line_in_order_witness :
  attempted
    (calls (fst (google_drive_bulk_download Sample.usual Sample.links_txt
                   Sample.out_path)))
  = [py "https://drive.google.com/uc?id=ABC123"; py "not a url";
     py "https://example.com/foo.zip"].
Proof.
  etransitivity.
  - exact (proj1 (one_download_per_line_in_order
                    usual_reaches_loop usual_failures_are_errors)).
  - vm_compute. reflexivity.
Defined.

Lemma item_failures_are_logged_and_passed_over_witness :
  let log :=
    log_text (fst (google_drive_bulk_download Sample.usual Sample.links_txt
                     Sample.out_path)) in
  count_level ERROR log = 2 /\
  In (invalid_url_entry (py "not a url")) log /\
  In (network_error_entry (py "https://example.com/foo.zip") Sample.timed_out)
     log /\
  count_entry finished_entry log = 1.
Proof.
  destruct (item_failures_are_logged_and_passed_over
              usual_reaches_loop usual_failures_are_errors)
    as (_ & _ & _ & Hcount & Hitems & Hfinished & _).
  assert (Hin2 : In (2, py "not a url") (download_items Sample.links_text))
    by (vm_compute; right; left; reflexivity).
  assert (Hin3 : In (3, py "https://example.com/foo.zip")
                    (download_items Sample.links_text))
    by (vm_compute; right; right; left; reflexivity).
  destruct (Hitems _ Sample.no_schema Hin2 eq_refl) as (Hinvalid & _ & _).
  destruct (Hitems _ Sample.timed_out Hin3 eq_refl) as (_ & Hnetwork & _).
  split; [|split; [|split]].
  - etransitivity; [exact Hcount | vm_compute; reflexivity].
  - exact (Hinvalid eq_refl).
  - exact (Hnetwork eq_refl eq_refl).
  - exact Hfinished.
Defined.

Lemma missing_links_file_aborts_witness :
  let run := google_drive_bulk_download Sample.no_links_file Sample.links_txt
               Sample.out_path in
  snd run = Ok tt /\
  log_text (fst run)
  = [{| level := ERROR;
        message := py "The file '/home/user/links.txt' does not exist!" |}] /\
  attempted (calls (fst run)) = [].
Proof.
  destruct (@missing_links_file_aborts Sample.no_links_file Sample.links_txt
              Sample.out_path eq_refl eq_refl)
    as (Hret & Hlog & _ & Hnone & _).
  split; [exact Hret|]. split; [|exact Hnone].
  etransitivity; [exact Hlog | vm_compute; reflexivity].
Defined.

Lemma blank_links_file_warns_witness :
  let run := google_drive_bulk_download Sample.blank_links_file
               Sample.links_txt Sample.out_path in
  log_text (fst run)
  = [{| level := WARNING; message := py "No valid URLs found in the file!" |}]
  /\ attempted (calls (fst run)) = [].
Proof.
  assert (Hread : links_read Sample.blank_links_file Sample.links_txt
                    Sample.out_path Sample.blank_text)
    by (repeat split; reflexivity).
  assert (Hblank : Forall (fun line => forallb isspace line = true)
                     (readlines Sample.blank_text))
    by (vm_compute; repeat constructor).
  destruct (blank_links_file_warns Hread Hblank)
    as (_ & Hlog & _ & Hnone & _).
  split; [exact Hlog | exact Hnone].
Defined.

Lemma output_directory_failure_aborts_witness :
  let run := google_drive_bulk_download Sample.read_only_output
               Sample.links_txt Sample.out_path in
  log_text (fst run)
  = [{| level := ERROR;
        message := py "Failed to set output directory '/data/out': "
                     ++ Sample.permission_denied |}]
  /\ attempted (calls (fst run)) = []
  /\ filter is_open_read (calls (fst run)) = [].
Proof.
  assert (Hfail : output_setup_fails Sample.read_only_output Sample.links_txt
                    Sample.out_path Sample.read_only)
    by (split; [split; reflexivity | left; reflexivity]).
  destruct (output_directory_failure_aborts Hfail (or_introl eq_refl))
    as (_ & Hlog & _ & Hnone & Hunread).
  split; [|split; [exact Hnone | exact Hunread]].
  etransitivity; [exact Hlog | vm_compute; reflexivity].
Defined.

Lemma working_directory_set_before_validation_witness :
  exists rest,
    calls (fst (google_drive_bulk_download Sample.frozen (py "links.txt")
                  Sample.out_path))
    = Chdir (py "/tmp/_MEI4242") :: IsFile (py "/tmp/_MEI4242/links.txt")
        :: rest.
Proof.
  destruct (@working_directory_set_before_validation
              Sample.frozen (py "links.txt") Sample.out_path
              (fun d => eq_refl) eq_refl) as [_ [rest Hrest]].
  exists rest. etransitivity; [exact Hrest | vm_compute; reflexivity].
Defined.

(** The lookup that validates a relative links-file path is made from the
    application's directory; the file is opened later, from the output
    directory. *)
Example relative_path_is_opened_from_output_directory :
  In (OpenRead (py "/data/out/links.txt"))
     (calls (fst (google_drive_bulk_download Sample.frozen (py "links.txt")
                    Sample.out_path))).
Proof. vm_compute. do 4 right. left. reflexivity. Qed.

End Run.

(** ** Runs of the worker, whatever the downloads raise *)

Module RunMore.

Import PyStrFacts LinesFacts Run.

Lemma MissingSchema_is_Exception (e : exn) :
  isinstance e MissingSchema = true -> isinstance e Exception = true.
Proof. destruct e as [[] s]; cbn; intros H; (reflexivity || discriminate). Qed.

Lemma RequestException_is_Exception (e : exn) :
  isinstance e RequestException = true -> isinstance e Exception = true.
Proof. destruct e as [[] s]; cbn; intros H; (reflexivity || discriminate). Qed.

Lemma no_download_no_attempt (cs : list call) :
  filter is_download cs = [] -> attempted cs = [].
Proof.
  induction cs as [|c cs IH]; [reflexivity|].
  destruct c; cbn; (discriminate || exact IH).
Qed.

Ltac unfold_run :=
  unfold google_drive_bulk_download, call_function,
    google_drive_bulk_download_body, initial, bind, os_chdir, is_file, mkdir,
    open_readlines, try_except, when, log_message, return_, ret,
    add_call, add_entry, set_cwd;
  cbn [cwd calls log_text app fst snd].

Section AnyDownloads.

Variable W : world.
Variables links_file_path output_directory_path : str.

Local Arguments py : simpl never.
Local Arguments str_of_nat : simpl never.
Local Arguments fix_google_drive_url : simpl never.
Local Arguments strip : simpl never.

(** One turn of the loop, whatever the download does. *)
Lemma download_item_any (total i : nat) (line : str) (p : proc) :
  cwd p = out_dir W output_directory_path ->
  S (downloads_made (calls p)) = i ->
  let u := fix_google_drive_url (strip line) in
  download_item W total (i, line) p
  = ({| cwd := cwd p;
        calls := calls p
                 ++ [Download (out_dir W output_directory_path) u false true];
        log_text := log_text p
                    ++ reached_entries W output_directory_path total (i, u) |},
     match download_result W i (out_dir W output_directory_path) u with
     | Ok _ => Normal tt
     | Raise e => if isinstance e Exception then Normal tt else Raised e
     end).
Proof.
  intros Hcwd Hi u.
  unfold download_item, try_except, bind, download, log_message.
  fold u. unfold add_entry, add_call. cbn [calls cwd log_text].
  rewrite Hi, Hcwd.
  change (levels_get INFO) with INFO. change (levels_get ERROR) with ERROR.
  unfold reached_entries, escapes, item_entries, outcome_entry,
    downloading_entry.
  cbn [fst snd].
  destruct (download_result W i (out_dir W output_directory_path) u)
    as [[]|e] eqn:E.
  - unfold add_entry, add_call. cbn [cwd calls log_text].
    rewrite <- app_assoc. reflexivity.
  - unfold error_entry. cbn [handle existsb].
    rewrite !orb_false_r.
    destruct (isinstance e MissingSchema) eqn:E1.
    { rewrite (MissingSchema_is_Exception e E1).
      unfold add_entry, add_call; cbn [cwd calls log_text negb].
      rewrite <- app_assoc; reflexivity. }
    destruct (isinstance e RequestException) eqn:E2.
    { rewrite (RequestException_is_Exception e E2).
      unfold add_entry, add_call; cbn [cwd calls log_text negb].
      rewrite <- app_assoc; reflexivity. }
    destruct (isinstance e Exception);
      unfold add_entry, add_call; cbn [cwd calls log_text negb];
      rewrite <- ?app_assoc; reflexivity.
Qed.

(** The loop, whatever the downloads do: it goes on until a download
    escapes. *)
Lemma download_loop_any (total : nat) (lines : list str) :
  forall (start : nat) (p : proc),
    cwd p = out_dir W output_directory_path ->
    S (downloads_made (calls p)) = start ->
    let items :=
      enumerate (map (fun line => fix_google_drive_url (strip line)) lines)
                start in
    for_each (enumerate lines start) (download_item W total) p
    = ({| cwd := cwd p;
          calls := calls p
                   ++ map (fun u => Download (out_dir W output_directory_path)
                                             u false true)
                          (map snd (reached W output_directory_path items));
          log_text := log_text p
                      ++ flat_map
                           (reached_entries W output_directory_path total)
                           (reached W output_directory_path items) |},
       match loop_outcome W output_directory_path items with
       | Ok _ => Normal tt
       | Raise e => Raised e
       end).
Proof.
  induction lines as [|line lines IH]; intros start p Hcwd Hstart.
  - cbn. rewrite !app_nil_r. destruct p; reflexivity.
  - cbn zeta. simpl map. rewrite !enumerate_cons.
    cbn [for_each]. unfold bind at 1.
    rewrite (download_item_any total line p Hcwd Hstart).
    set (u := fix_google_drive_url (strip line)).
    unfold loop_outcome. cbn [reached find flat_map map snd].
    destruct (download_result W start (out_dir W output_directory_path) u)
      as [[]|e] eqn:E.
    + assert (Hesc : escapes W output_directory_path (start, u) = false)
        by (unfold escapes; cbn [fst snd]; rewrite E; reflexivity).
      rewrite !Hesc.
      cbn zeta in IH. rewrite IH; [| exact Hcwd |].
      * cbn [cwd calls log_text]. unfold loop_outcome.
        rewrite <- !app_assoc. reflexivity.
      * cbn [calls]. rewrite downloads_made_app. cbn. lia.
    + destruct (isinstance e Exception) eqn:Ee.
      * assert (Hesc : escapes W output_directory_path (start, u) = false)
          by (unfold escapes; cbn [fst snd]; rewrite E, Ee; reflexivity).
        rewrite !Hesc.
        cbn zeta in IH. rewrite IH; [| exact Hcwd |].
        -- cbn [cwd calls log_text]. unfold loop_outcome.
           rewrite <- !app_assoc. reflexivity.
        -- cbn [calls]. rewrite downloads_made_app. cbn. lia.
      * assert (Hesc : escapes W output_directory_path (start, u) = true)
          by (unfold escapes; cbn [fst snd]; rewrite E, Ee; reflexivity).
        rewrite !Hesc. cbn [fst snd map flat_map]. rewrite E.
        rewrite !app_nil_r. reflexivity.
Qed.


Lemma reached_prefix (items : list (nat * str)) :
  exists rest, items = reached W output_directory_path items ++ rest.
Proof.
  induction items as [|item items [rest IH]]; [exists []; reflexivity|].
  cbn [reached]. destruct (escapes W output_directory_path item).
  - exists items. reflexivity.
  - exists rest. cbn [app]. rewrite <- IH. reflexivity.
Qed.

Lemma reached_all (items : list (nat * str)) :
  existsb (escapes W output_directory_path) items = false ->
  reached W output_directory_path items = items.
Proof.
  induction items as [|item items IH]; [reflexivity|].
  cbn [existsb reached]. intros H. apply orb_false_iff in H as [-> H].
  rewrite (IH H). reflexivity.
Qed.

(** The loop ends normally when no download escapes, and by an exception
    that is no instance of [Exception] otherwise. *)
Lemma loop_outcome_cases (items : list (nat * str)) :
  (existsb (escapes W output_directory_path) items = false /\
   loop_outcome W output_directory_path items = Ok tt) \/
  (existsb (escapes W output_directory_path) items = true /\
   exists e, loop_outcome W output_directory_path items = Raise e /\
             isinstance e Exception = false).
Proof.
  unfold loop_outcome. induction items as [|item items IH]; cbn [find existsb].
  - left. split; reflexivity.
  - destruct (escapes W output_directory_path item) eqn:E; cbn [orb].
    + right. split; [reflexivity|]. unfold escapes in E.
      destruct (download_result W (fst item)
                  (out_dir W output_directory_path) (snd item)) as [[]|e];
        [discriminate|].
      exists e. split; [reflexivity|].
      apply negb_true_iff. exact E.
    + exact IH.
Qed.

Lemma count_finished_reached (total : nat) (items : list (nat * str)) :
  count_entry finished_entry
    (flat_map (reached_entries W output_directory_path total) items) = 0.
Proof.
  induction items as [|item items IH]; [reflexivity|].
  cbn [flat_map]. rewrite count_entry_app, IH, Nat.add_0_r.
  unfold reached_entries.
  destruct (escapes W output_directory_path item).
  - reflexivity.
  - exact (count_finished_items W output_directory_path total [item]).
Qed.

(** A run that reaches the loop, from its first call to its last line of
    log, whatever the downloads raise. *)
Lemma run_through_loop_any (text : str) :
  reaches_loop W links_file_path output_directory_path text ->
  google_drive_bulk_download W links_file_path output_directory_path
  = ({| cwd := out_dir W output_directory_path;
        calls := [Chdir (app_dir W);
                  IsFile (abspath W (app_dir W) links_file_path);
                  Mkdir (out_dir W output_directory_path);
                  Chdir (out_dir W output_directory_path);
                  OpenRead (abspath W (out_dir W output_directory_path)
                              links_file_path)]
                 ++ map (fun u => Download (out_dir W output_directory_path)
                                           u false true)
                        (map snd (reached W output_directory_path
                                    (download_items text)));
        log_text := [started_entry]
                    ++ flat_map (reached_entries W output_directory_path
                                   (List.length (download_urls text)))
                                (reached W output_directory_path
                                   (download_items text))
                    ++ match loop_outcome W output_directory_path
                               (download_items text) with
                       | Ok _ => [finished_entry]
                       | Raise _ => []
                       end |},
     loop_outcome W output_directory_path (download_items text)).
Proof.
  unfold reaches_loop, links_read, reaches_reading, reaches_output_setup,
    reaches_validation, download_items, download_urls, out_dir, app_dir.
  intros [[[[Hcd Hfile] [Hmk Hcd2]] Hread] Hlines].
  rewrite length_map.
  unfold_run. rewrite Hcd. cbn [cwd calls log_text app fst snd].
  rewrite Hfile. cbn [negb cwd calls log_text app fst snd].
  rewrite Hmk. cbn [cwd calls log_text app fst snd].
  rewrite Hcd2. cbn [cwd calls log_text app fst snd].
  rewrite Hread. cbn [cwd calls log_text app fst snd].
  destruct (clean_lines (readlines text)) as [|l ls] eqn:E; [congruence|].
  rewrite (download_loop_any _ (l :: ls)); [|reflexivity|reflexivity].
  cbn [cwd calls log_text].
  change (levels_get INFO) with INFO.
  unfold out_dir, app_dir, started_entry, finished_entry.
  match goal with
  | |- context [loop_outcome W output_directory_path ?items] =>
      destruct (loop_outcome W output_directory_path items) as [[]|e]
  end; cbn [cwd calls log_text];
    rewrite <- ?app_assoc, ?app_nil_r; reflexivity.
Qed.


(** Every run ends in one of four ways. *)
Lemma run_cases :
  let run := google_drive_bulk_download W links_file_path
               output_directory_path in
  (exists e, snd run = Raise e /\ log_text (fst run) = [] /\
             filter is_download (calls (fst run)) = []) \/
  (snd run = Ok tt /\ filter is_download (calls (fst run)) = [] /\
   exists m, log_text (fst run) = [{| level := ERROR; message := m |}]) \/
  (snd run = Ok tt /\ filter is_download (calls (fst run)) = [] /\
   log_text (fst run)
   = [{| level := WARNING;
         message := py "No valid URLs found in the file!" |}]) \/
  (exists text,
     reaches_loop W links_file_path output_directory_path text).
Proof.
  cbv zeta.
  unfold reaches_loop, links_read, reaches_reading, reaches_output_setup,
    reaches_validation, out_dir, app_dir.
  unfold_run.
  change (levels_get ERROR) with ERROR.
  change (levels_get WARNING) with WARNING.
  destruct (chdir_result W (abspath W (launch_dir W) (application_path W)))
    as [[]|e1] eqn:H1; cbn [cwd calls log_text app fst snd];
    [|left; exists e1; repeat split; reflexivity].
  destruct (is_file_result W
              (abspath W (abspath W (launch_dir W) (application_path W))
                 links_file_path))
    as [[|]|e2] eqn:H2; cbn [negb cwd calls log_text app fst snd];
    [| right; left; repeat split; eexists; reflexivity
     | left; exists e2; repeat split; reflexivity ].
  destruct (mkdir_result W
              (abspath W (abspath W (launch_dir W) (application_path W))
                 output_directory_path))
    as [[]|e3] eqn:H3; cbn [handle cwd calls log_text app fst snd].
  2:{ destruct (existsb (isinstance e3) [OSError; PermissionError]);
        cbn [cwd calls log_text app fst snd];
        [ right; left; repeat split; eexists; reflexivity
        | left; exists e3; repeat split; reflexivity ]. }
  destruct (chdir_result W
              (abspath W (abspath W (launch_dir W) (application_path W))
                 output_directory_path))
    as [[]|e4] eqn:H4; cbn [handle cwd calls log_text app fst snd].
  2:{ destruct (existsb (isinstance e4) [OSError; PermissionError]);
        cbn [cwd calls log_text app fst snd];
        [ right; left; repeat split; eexists; reflexivity
        | left; exists e4; repeat split; reflexivity ]. }
  destruct (read_result W
              (abspath W
                 (abspath W (abspath W (launch_dir W) (application_path W))
                    output_directory_path) links_file_path))
    as [text|e5] eqn:H5; cbn [handle cwd calls log_text app fst snd].
  2:{ destruct (existsb (isinstance e5) [IOError; UnicodeDecodeError]);
        cbn [cwd calls log_text app fst snd];
        [ right; left; repeat split; eexists; reflexivity
        | left; exists e5; repeat split; reflexivity ]. }
  destruct (clean_lines (readlines text)) as [|l ls] eqn:E;
    cbn [cwd calls log_text app fst snd].
  - right; right; left. repeat split; reflexivity.
  - right; right; right. exists text. rewrite E.
    repeat split; try reflexivity. discriminate.
Qed.

(** X1. When reading the links file fails with an [OSError] or a
    [UnicodeDecodeError], the run logs exactly one entry, an ERROR with
    the text of the error, and returns: the output directory was already
    created and entered, and nothing is downloaded. *)
Theorem read_failure_aborts (e : exn) :
  reaches_reading W links_file_path output_directory_path ->
  read_result W (abspath W (out_dir W output_directory_path) links_file_path)
  = Raise e ->
  isinstance e IOError = true \/ isinstance e UnicodeDecodeError = true ->
  let run := google_drive_bulk_download W links_file_path
               output_directory_path in
  snd run = Ok tt /\
  log_text (fst run)
  = [{| level := ERROR;
        message := py "Failed to read file '" ++ links_file_path
                     ++ py "': " ++ exn_str e |}] /\
  attempted (calls (fst run)) = [] /\
  calls (fst run)
  = [Chdir (app_dir W); IsFile (abspath W (app_dir W) links_file_path);
     Mkdir (out_dir W output_directory_path);
     Chdir (out_dir W output_directory_path);
     OpenRead (abspath W (out_dir W output_directory_path) links_file_path)]
  /\ cwd (fst run) = out_dir W output_directory_path.
Proof.
  unfold reaches_reading, reaches_output_setup, reaches_validation,
    out_dir, app_dir.
  intros [[Hcd Hfile] [Hmk Hcd2]] Hread Hclass.
  assert (Hcatch : existsb (isinstance e) [IOError; UnicodeDecodeError]
                   = true).
  { cbn [existsb]. destruct Hclass as [-> | ->]; [reflexivity|].
    rewrite orb_true_r. reflexivity. }
  unfold_run. rewrite Hcd. cbn [cwd calls log_text app fst snd].
  rewrite Hfile. cbn [negb cwd calls log_text app fst snd].
  rewrite Hmk. cbn [cwd calls log_text app fst snd].
  rewrite Hcd2. cbn [cwd calls log_text app fst snd].
  rewrite Hread. cbn [handle]. rewrite Hcatch.
  cbn [cwd calls log_text app fst snd].
  change (levels_get ERROR) with ERROR.
  repeat split; reflexivity.
Qed.

(** X2. In a run that reaches the loop, whatever the downloads raise: the
    URLs are attempted in file order up to the first download that raises
    something that is no [Exception], that one included, and no further;
    the function ends as the loop does, and the "finished" line is logged
    only when the loop ends normally. *)
Theorem loop_stops_at_first_escaping_download (text : str) :
  reaches_loop W links_file_path output_directory_path text ->
  let run := google_drive_bulk_download W links_file_path
               output_directory_path in
  let items := download_items text in
  let got := reached W output_directory_path items in
  snd run = loop_outcome W output_directory_path items /\
  attempted (calls (fst run)) = map snd got /\
  (exists rest, download_urls text = attempted (calls (fst run)) ++ rest) /\
  log_text (fst run)
  = [started_entry]
    ++ flat_map (reached_entries W output_directory_path (List.length items))
                got
    ++ match loop_outcome W output_directory_path items with
       | Ok _ => [finished_entry]
       | Raise _ => []
       end.
Proof.
  intros Hloop. cbv zeta. rewrite (run_through_loop_any Hloop).
  cbn [fst snd calls log_text].
  assert (Hlen : List.length (download_items text)
                 = List.length (download_urls text)).
  { unfold download_items.
    rewrite <- (enumerate_snd (download_urls text) 1) at 2.
    rewrite length_map. reflexivity. }
  rewrite Hlen, attempted_app, attempted_downloads.
  split; [reflexivity|]. split; [reflexivity|]. split; [|reflexivity].
  destruct (reached_prefix (download_items text)) as [rest Hrest].
  exists (map snd rest). cbn [attempted flat_map app].
  rewrite <- map_app, <- Hrest. unfold download_items.
  rewrite enumerate_snd. reflexivity.
Qed.

(** X3. In a run that reaches the loop the function returns normally
    exactly when no download raises something that is no [Exception];
    the "finished" line is then logged once and every URL was attempted.
    Otherwise the function ends by that exception, which is no instance
    of [Exception], and "finished" is not logged. *)
Theorem finished_is_logged_exactly_on_normal_return (text : str) :
  reaches_loop W links_file_path output_directory_path text ->
  let run := google_drive_bulk_download W links_file_path
               output_directory_path in
  let items := download_items text in
  (existsb (escapes W output_directory_path) items = false /\
   snd run = Ok tt /\
   count_entry finished_entry (log_text (fst run)) = 1 /\
   last (log_text (fst run)) started_entry = finished_entry /\
   attempted (calls (fst run)) = download_urls text) \/
  (existsb (escapes W output_directory_path) items = true /\
   (exists e, snd run = Raise e /\ isinstance e Exception = false) /\
   count_entry finished_entry (log_text (fst run)) = 0 /\
   attempted (calls (fst run)) <> []).
Proof.
  intros Hloop. cbv zeta. rewrite (run_through_loop_any Hloop).
  cbn [fst snd calls log_text].
  rewrite attempted_app, attempted_downloads. cbn [attempted flat_map app].
  destruct (loop_outcome_cases (download_items text))
    as [[Hnone Hok] | [Hsome [e [Hraise He]]]].
  - left. rewrite Hok, (reached_all _ Hnone).
    split; [exact Hnone|]. split; [reflexivity|].
    split; [|split].
    + change (started_entry :: ?l) with ([started_entry] ++ l).
      rewrite !count_entry_app, count_finished_reached.
      change (count_entry finished_entry [started_entry]) with 0.
      change (count_entry finished_entry [finished_entry]) with 1. lia.
    + change (started_entry :: ?l) with ([started_entry] ++ l).
      rewrite app_assoc. apply last_last.
    + unfold download_items. rewrite enumerate_snd. reflexivity.
  - right. rewrite Hraise.
    split; [exact Hsome|]. split; [exists e; split; [reflexivity|exact He]|].
    split.
    + change (started_entry :: ?l) with ([started_entry] ++ l).
      rewrite !count_entry_app, count_finished_reached. reflexivity.
    + destruct (download_items text) as [|item items];
        [discriminate Hsome|]. cbn [reached map]. discriminate.
Qed.


Lemma filter_downloads (d : str) (urls : list str) :
  filter is_download (map (fun u => Download d u false true) urls)
  = map (fun u => Download d u false true) urls.
Proof.
  induction urls as [|u urls IH]; [reflexivity|]. cbn. f_equal. exact IH.
Qed.

Lemma attempted_is_prefix (text : str) :
  reaches_loop W links_file_path output_directory_path text ->
  exists rest,
    download_urls text
    = attempted (calls (fst (google_drive_bulk_download W links_file_path
                               output_directory_path))) ++ rest.
Proof.
  intros Hloop. rewrite (run_through_loop_any Hloop).
  cbn [fst calls]. rewrite attempted_app, attempted_downloads.
  destruct (reached_prefix (download_items text)) as [rest Hrest].
  exists (map snd rest). cbn [attempted flat_map app].
  rewrite <- map_app, <- Hrest. unfold download_items.
  rewrite enumerate_snd. reflexivity.
Qed.

(** X4. A run that returns normally has always logged something: one
    ERROR line and nothing else, the one WARNING line and nothing else,
    or the "started" line first and the "finished" line last.  In the
    first two cases nothing was downloaded. *)
Theorem normal_return_always_logs :
  let run := google_drive_bulk_download W links_file_path
               output_directory_path in
  snd run = Ok tt ->
  (attempted (calls (fst run)) = [] /\
   exists m, log_text (fst run) = [{| level := ERROR; message := m |}]) \/
  (attempted (calls (fst run)) = [] /\
   log_text (fst run)
   = [{| level := WARNING;
         message := py "No valid URLs found in the file!" |}]) \/
  (exists middle,
     log_text (fst run) = [started_entry] ++ middle ++ [finished_entry]).
Proof.
  cbv zeta. intros Hok.
  destruct run_cases as [(e & He & _) | [(_ & Hno & Hlog) | [(_ & Hno & Hlog)
                        | [text Hloop]]]].
  - rewrite He in Hok. discriminate.
  - left. split; [exact (no_download_no_attempt _ Hno) | exact Hlog].
  - right; left. split; [exact (no_download_no_attempt _ Hno) | exact Hlog].
  - right; right. rewrite (run_through_loop_any Hloop) in *.
    cbn [fst snd log_text] in *. rewrite Hok. eexists. reflexivity.
Qed.

(** X5. A run that ends by an exception has either logged nothing and
    downloaded nothing, the exception coming from before the loop, or
    has logged "started" first and never "finished", the exception
    coming from a download and being no instance of [Exception]. *)
Theorem uncaught_exception_cases (e : exn) :
  let run := google_drive_bulk_download W links_file_path
               output_directory_path in
  snd run = Raise e ->
  (log_text (fst run) = [] /\ attempted (calls (fst run)) = []) \/
  (isinstance e Exception = false /\
   (exists more, log_text (fst run) = started_entry :: more) /\
   count_entry finished_entry (log_text (fst run)) = 0 /\
   attempted (calls (fst run)) <> []).
Proof.
  cbv zeta. intros Hraise.
  destruct run_cases as [(e' & He & Hlog & Hno) | [(Hok & _) | [(Hok & _)
                        | [text Hloop]]]].
  - left. split; [exact Hlog | exact (no_download_no_attempt _ Hno)].
  - rewrite Hok in Hraise. discriminate.
  - rewrite Hok in Hraise. discriminate.
  - right. rewrite (run_through_loop_any Hloop) in *.
    cbn [fst snd calls log_text] in *.
    rewrite attempted_app, attempted_downloads.
    cbn [attempted flat_map app].
    destruct (loop_outcome_cases (download_items text))
      as [[_ Hok] | [Hsome [e' [He' Hclass]]]];
      [rewrite Hok in Hraise; discriminate|].
    rewrite Hraise in He'. injection He' as <-. rewrite Hraise.
    split; [exact Hclass|]. split; [eexists; reflexivity|]. split.
    + change (started_entry :: ?l) with ([started_entry] ++ l).
      rewrite !count_entry_app, count_finished_reached. reflexivity.
    + destruct (download_items text) as [|item items];
        [discriminate Hsome|]. cbn [reached map]. discriminate.
Qed.

(** X6. In every run, whatever the surroundings answer, each download is
    made from the output directory, with [quiet=False] and [fuzzy=True],
    and the URLs attempted are the first ones of the links file, in the
    order of the file: no line is attempted twice, out of turn or before
    the output directory is entered. *)
Theorem downloads_only_from_output_directory :
  let run := google_drive_bulk_download W links_file_path
               output_directory_path in
  filter is_download (calls (fst run))
  = map (fun u => Download (out_dir W output_directory_path) u false true)
        (attempted (calls (fst run))) /\
  (attempted (calls (fst run)) = [] \/
   exists text rest,
     reaches_loop W links_file_path output_directory_path text /\
     cwd (fst run) = out_dir W output_directory_path /\
     download_urls text = attempted (calls (fst run)) ++ rest).
Proof.
  cbv zeta.
  destruct run_cases as [(e' & _ & _ & Hno) | [(_ & Hno & _) | [(_ & Hno & _)
                        | [text Hloop]]]];
    try (rewrite Hno, (no_download_no_attempt _ Hno);
         split; [reflexivity | left; reflexivity]).
  split.
  - rewrite (run_through_loop_any Hloop). cbn [fst calls].
    rewrite attempted_app, attempted_downloads, filter_app, filter_downloads.
    reflexivity.
  - right. destruct (attempted_is_prefix Hloop) as [rest Hrest].
    exists text, rest. split; [exact Hloop|]. split; [|exact Hrest].
    rewrite (run_through_loop_any Hloop). reflexivity.
Qed.

(** X7. Once the output directory is set, the calls made so far are, in
    this order: the change to the application's directory, the test of
    the links-file path resolved against that directory, the creation of
    the output directory, the change into it, and the opening of the
    links-file path resolved against the output directory.  A relative
    links-file path is thus tested in one directory and opened in
    another. *)
Theorem links_file_tested_and_opened_from_different_directories :
  reaches_reading W links_file_path output_directory_path ->
  exists rest,
    calls (fst (google_drive_bulk_download W links_file_path
                  output_directory_path))
    = [Chdir (app_dir W);
       IsFile (abspath W (app_dir W) links_file_path);
       Mkdir (out_dir W output_directory_path);
       Chdir (out_dir W output_directory_path);
       OpenRead (abspath W (out_dir W output_directory_path)
                   links_file_path)]
      ++ rest.
Proof.
  unfold reaches_reading, reaches_output_setup, reaches_validation,
    out_dir, app_dir.
  intros [[Hcd Hfile] [Hmk Hcd2]].
  unfold_run. rewrite Hcd. cbn [cwd calls log_text app fst snd].
  rewrite Hfile. cbn [negb cwd calls log_text app fst snd].
  rewrite Hmk. cbn [cwd calls log_text app fst snd].
  rewrite Hcd2. cbn [cwd calls log_text app fst snd].
  destruct (read_result W
              (abspath W
                 (abspath W (abspath W (launch_dir W) (application_path W))
                    output_directory_path) links_file_path))
    as [text|e] eqn:Hread; cbn [handle cwd calls log_text app fst snd].
  2:{ destruct (existsb (isinstance e) [IOError; UnicodeDecodeError]);
        cbn [cwd calls log_text app fst snd]; exists []; reflexivity. }
  destruct (clean_lines (readlines text)) as [|l ls] eqn:E;
    cbn [cwd calls log_text app fst snd]; [exists []; reflexivity|].
  rewrite (download_loop_any _ (l :: ls)); [|reflexivity|reflexivity].
  cbn [cwd calls log_text].
  match goal with
  | |- context [loop_outcome W output_directory_path ?items] =>
      destruct (loop_outcome W output_directory_path items) as [[]|e]
  end; cbn [cwd calls log_text fst]; eexists; reflexivity.
Qed.

End AnyDownloads.

(** *** The theorems at sample surroundings *)

Lemma interrupted_reaches_loop :
  reaches_loop SampleInterrupted.interrupted Sample.links_txt Sample.out_path
               Sample.links_text.
Proof.
  repeat split; try reflexivity. vm_compute. discriminate.
Qed.

Lemma read_failure_aborts_witness :
  let run := google_drive_bulk_download SampleInterrupted.unreadable
               Sample.links_txt Sample.out_path in
  snd run = Ok tt /\
  log_text (fst run)
  = [{| level := ERROR;
        message := py "Failed to read file '/home/user/links.txt': "
                     ++ exn_str SampleInterrupted.undecodable |}] /\
  attempted (calls (fst run)) = [].
Proof.
  assert (Hreach : reaches_reading SampleInterrupted.unreadable
                     Sample.links_txt Sample.out_path)
    by (repeat split; reflexivity).
  destruct (@read_failure_aborts SampleInterrupted.unreadable
              Sample.links_txt Sample.out_path SampleInterrupted.undecodable
              Hreach eq_refl (or_intror eq_refl))
    as (Hret & Hlog & Hnone & _).
  split; [exact Hret|]. split; [|exact Hnone].
  etransitivity; [exact Hlog | vm_compute; reflexivity].
Defined.

Lemma loop_stops_at_first_escaping_download_witness :
  let run := google_drive_bulk_download SampleInterrupted.interrupted
               Sample.links_txt Sample.out_path in
  snd run = Raise SampleInterrupted.system_exit /\
  attempted (calls (fst run))
  = [py "https://drive.google.com/uc?id=ABC123"; py "not a url"].
Proof.
  destruct (loop_stops_at_first_escaping_download interrupted_reaches_loop)
    as (Hend & Hgot & _).
  split.
  - etransitivity; [exact Hend | vm_compute; reflexivity].
  - etransitivity; [exact Hgot | vm_compute; reflexivity].
Defined.

Lemma finished_is_logged_exactly_on_normal_return_witness :
  let run := google_drive_bulk_download SampleInterrupted.interrupted
               Sample.links_txt Sample.out_path in
  (exists e, snd run = Raise e /\ isinstance e Exception = false) /\
  count_entry finished_entry (log_text (fst run)) = 0.
Proof.
  destruct (finished_is_logged_exactly_on_normal_return
              interrupted_reaches_loop)
    as [(Hnone & _) | (_ & Hraise & Hcount & _)].
  - vm_compute in Hnone. discriminate Hnone.
  - split; [exact Hraise | exact Hcount].
Defined.

Lemma normal_return_always_logs_witness :
  exists middle,
    log_text (fst (google_drive_bulk_download Sample.usual Sample.links_txt
                     Sample.out_path))
    = [started_entry] ++ middle ++ [finished_entry].
Proof.
  assert (Hok : snd (google_drive_bulk_download Sample.usual Sample.links_txt
                       Sample.out_path) = Ok tt)
    by (vm_compute; reflexivity).
  destruct (@normal_return_always_logs Sample.usual Sample.links_txt
              Sample.out_path Hok)
    as [(Hnone & _) | [(Hnone & _) | Hlog]].
  - vm_compute in Hnone. discriminate Hnone.
  - vm_compute in Hnone. discriminate Hnone.
  - exact Hlog.
Defined.

Lemma uncaught_exception_cases_witness :
  let run := google_drive_bulk_download SampleInterrupted.interrupted
               Sample.links_txt Sample.out_path in
  isinstance SampleInterrupted.system_exit Exception = false /\
  count_entry finished_entry (log_text (fst run)) = 0.
Proof.
  assert (Hraise : snd (google_drive_bulk_download
                          SampleInterrupted.interrupted Sample.links_txt
                          Sample.out_path)
                   = Raise SampleInterrupted.system_exit)
    by (vm_compute; reflexivity).
  destruct (@uncaught_exception_cases SampleInterrupted.interrupted
              Sample.links_txt Sample.out_path _ Hraise)
    as [(Hlog & _) | (Hclass & _ & Hcount & _)].
  - vm_compute in Hlog. discriminate Hlog.
  - split; [exact Hclass | exact Hcount].
Defined.

Lemma links_file_tested_and_opened_from_different_directories_witness :
  exists rest,
    calls (fst (google_drive_bulk_download Sample.frozen (py "links.txt")
                  Sample.out_path))
    = [Chdir (py "/tmp/_MEI4242"); IsFile (py "/tmp/_MEI4242/links.txt");
       Mkdir (py "/data/out"); Chdir (py "/data/out");
       OpenRead (py "/data/out/links.txt")] ++ rest.
Proof.
  assert (Hreach : reaches_reading Sample.frozen (py "links.txt")
                     Sample.out_path)
    by (repeat split; reflexivity).
  destruct (links_file_tested_and_opened_from_different_directories Hreach)
    as [rest Hrest].
  exists rest. etransitivity; [exact Hrest | vm_compute; reflexivity].
Defined.

End RunMore.

(** ** The lines of the links file *)

Module LinesMore.

Import PyStrFacts LinesFacts.

Lemma lstrip_after_spaces (w s : str) :
  forallb isspace w = true -> lstrip (w ++ s) = lstrip s.
Proof.
  induction w as [|c w IH]; [reflexivity|]. cbn [forallb app lstrip].
  intros H. apply andb_true_iff in H as [-> H]. exact (IH H).
Qed.

(** What [strip] keeps was in the string. *)
Lemma strip_incl (s : str) (c : N) : In c (strip s) -> In c s.
Proof.
  unfold strip. intros H.
  destruct (rstrip_split (lstrip s)) as (w2 & H2 & _).
  destruct (lstrip_split s) as (w1 & H1 & _).
  rewrite H1. apply in_or_app. right.
  rewrite H2. apply in_or_app. left. exact H.
Qed.

(** What [strip] returns does not begin with white space. *)
Lemma strip_head (s : str) :
  match strip s with [] => True | c :: _ => isspace c = false end.
Proof.
  unfold strip. apply rstrip_head.
  destruct (lstrip_split s) as (w & _ & _ & H). exact H.
Qed.

(** What [strip] returns does not end with white space. *)
Lemma strip_last (s : str) :
  strip s <> [] -> isspace (last (strip s) 0%N) = false.
Proof.
  unfold strip, rstrip.
  destruct (lstrip_split (rev (lstrip s))) as (w & _ & _ & H).
  destruct (lstrip (rev (lstrip s))) as [|c t];
    [intros Hne; exfalso; apply Hne; reflexivity|].
  intros _. cbn [rev]. rewrite last_last. exact H.
Qed.

(** A white-space character at the end does not change what [strip]
    returns. *)
Lemma strip_trailing_space (s : str) (c : N) :
  isspace c = true -> strip (s ++ [c]) = strip s.
Proof.
  intros Hc. unfold strip.
  destruct (lstrip_split s) as (w & Hs & Hw & Hhead).
  destruct (lstrip s) as [|d t] eqn:E.
  - rewrite app_nil_r in Hs. subst w.
    rewrite (lstrip_spaces (s ++ [c])); [reflexivity|].
    rewrite forallb_app, Hw. cbn. rewrite Hc. reflexivity.
  - rewrite Hs at 1. rewrite <- app_assoc.
    rewrite lstrip_after_spaces by exact Hw.
    cbn [app lstrip]. rewrite Hhead.
    unfold rstrip. change (d :: t ++ [c]) with ((d :: t) ++ [c]).
    rewrite rev_app_distr. cbn [rev app lstrip]. rewrite Hc. reflexivity.
Qed.

Lemma translate_newlines_no_CR (s : str) : ~ In CR (translate_newlines s).
Proof.
  induction s as [|c s IH]; [intros []|]. cbn [translate_newlines].
  destruct (c =? CR)%N eqn:Ec.
  - destruct s as [|d s]; [intros [H|[]]; discriminate H|].
    destruct (d =? LF)%N; [exact IH|].
    intros [H|H]; [discriminate H | exact (IH H)].
  - intros [H|H]; [|exact (IH H)].
    subst c. rewrite N.eqb_refl in Ec. discriminate.
Qed.

(** The lines put together again are the text. *)
Lemma split_keepends_concat (s : str) : concat (split_keepends s) = s.
Proof.
  induction s as [|c s IH]; [reflexivity|]. cbn [split_keepends].
  destruct (c =? LF)%N.
  - cbn. rewrite IH. reflexivity.
  - destruct (split_keepends s) as [|l ls]; cbn in *; rewrite <- IH;
      reflexivity.
Qed.

(** A line is not empty and has its only ["\n"] at its end, if any. *)
Lemma split_keepends_shape (s : str) :
  Forall (fun line => exists body,
            ~ In LF body /\
            (line = body ++ [LF] \/ (line = body /\ body <> [])))
         (split_keepends s).
Proof.
  induction s as [|c s IH]; [constructor|]. cbn [split_keepends].
  destruct (c =? LF)%N eqn:Ec.
  - apply N.eqb_eq in Ec. subst c. constructor; [|exact IH].
    exists []. split; [intros []|]. left. reflexivity.
  - assert (Hc : c <> LF) by (apply N.eqb_neq; exact Ec).
    destruct (split_keepends s) as [|l ls].
    + constructor; [|constructor]. exists [c]. split.
      * intros [H|[]]. congruence.
      * right. split; [reflexivity | discriminate].
    + inversion IH as [|? ? (body & Hbody & Hl) Hls]. subst.
      constructor; [|exact Hls]. exists (c :: body). split.
      * intros [H|H]; [congruence | exact (Hbody H)].
      * destruct Hl as [-> | [-> _]];
          [left; reflexivity | right; split; [reflexivity|discriminate]].
Qed.

Lemma in_clean_lines (lines : list str) (line : str) :
  In line (clean_lines lines) <->
  exists raw, In raw lines /\ strip raw = line /\ line <> [].
Proof.
  unfold clean_lines. rewrite in_map_iff. split.
  - intros (raw & <- & Hin). apply filter_In in Hin as [Hin Hne].
    exists raw. split; [exact Hin|]. split; [reflexivity|].
    intros H. rewrite H in Hne. discriminate.
  - intros (raw & Hin & <- & Hne). exists raw. split; [reflexivity|].
    apply filter_In. split; [exact Hin|].
    destruct (str_eqb (strip raw) []) eqn:E; [|reflexivity].
    apply str_eqb_eq in E. congruence.
Qed.

(** X8. Every entry of [file_lines] is a single trimmed line: it is not
    empty, neither begins nor ends with white space, contains no line
    break, and [strip] leaves it as it is, so that the [url_raw.strip()]
    of the loop changes nothing. *)
Theorem file_lines_are_trimmed_single_lines (text line : str) :
  In line (clean_lines (readlines text)) ->
  line <> [] /\
  strip line = line /\
  match line with [] => True | c :: _ => isspace c = false end /\
  isspace (last line 0%N) = false /\
  ~ In LF line /\ ~ In CR line.
Proof.
  intros H. apply in_clean_lines in H as (raw & Hraw & <- & Hne).
  split; [exact Hne|]. split; [apply strip_idempotent|].
  split; [apply strip_head|]. split; [apply strip_last; exact Hne|].
  unfold readlines in Hraw.
  pose proof (split_keepends_shape (translate_newlines text)) as Hshape.
  rewrite Forall_forall in Hshape.
  destruct (Hshape raw Hraw) as (body & Hbody & Hline).
  split.
  - intros HLF. apply Hbody.
    destruct Hline as [-> | [-> _]].
    + rewrite strip_trailing_space in HLF by reflexivity.
      exact (strip_incl _ _ HLF).
    + exact (strip_incl _ _ HLF).
  - intros HCR. apply strip_incl in HCR.
    apply (translate_newlines_no_CR text).
    rewrite <- (split_keepends_concat (translate_newlines text)).
    apply in_concat. exists raw. split; assumption.
Qed.

Lemma file_lines_are_trimmed_single_lines_witness :
  strip (py "not a url") = py "not a url" /\ ~ In LF (py "not a url").
Proof.
  assert (Hin : In (py "not a url")
                   (clean_lines (readlines Sample.links_text)))
    by (vm_compute; right; left; reflexivity).
  destruct (file_lines_are_trimmed_single_lines _ _ Hin)
    as (_ & Hstrip & _ & _ & HLF & _).
  split; [exact Hstrip | exact HLF].
Defined.

End LinesMore.

(** ** More on the URL normalizer *)

Module NormalizerMore.

Import PyStrFacts Normalizer.

(** [str.replace] with a [new] no longer than [old] does not lengthen the
    string. *)
Lemma replace_length (old new : str) (n : nat) :
  old <> [] -> (List.length new <= List.length old)%nat ->
  forall s, (List.length s <= n)%nat ->
            (List.length (replace old new s) <= List.length s)%nat.
Proof.
  intros Hold Hlen. induction n as [|n IH]; intros s Hn.
  - destruct s; [|cbn in Hn; lia]. rewrite replace_nil.
    destruct old; [congruence | cbn; lia].
  - destruct s as [|c s].
    + rewrite replace_nil. destruct old; [congruence | cbn; lia].
    + destruct (startswith old (c :: s)) eqn:E.
      * rewrite (@replace_hit old new _ Hold E), length_app.
        pose proof (startswith_length _ _ E) as Hle.
        assert (Hold' : (0 < List.length old)%nat)
          by (destruct old; [congruence | cbn; lia]).
        assert (Hrest : (List.length (skipn (List.length old) (c :: s))
                         <= n)%nat)
          by (rewrite length_skipn; lia).
        specialize (IH _ Hrest). rewrite length_skipn in IH. lia.
      * rewrite (@replace_miss old new _ _ Hold E). cbn [List.length].
        assert (Hrest : (List.length s <= n)%nat) by (cbn in Hn; lia).
        specialize (IH _ Hrest). lia.
Qed.

(** X9. A URL that contains neither ["/file/d/"] nor ["/view"] is
    returned unchanged, whether or not ["drive.google.com"] occurs in
    it: a link that is already a direct-download link stays as it is. *)
Theorem fix_google_drive_url_without_patterns (url : str) :
  contains FILE_D url = false ->
  contains VIEW url = false ->
  fix_google_drive_url url = url.
Proof.
  intros Hf Hv. unfold fix_google_drive_url.
  destruct (contains DRIVE_HOST url); [|reflexivity].
  rewrite (@replace_absent FILE_D UC_ID url FILE_D_nonempty Hf).
  exact (@replace_absent VIEW [] url VIEW_nonempty Hv).
Qed.

Lemma fix_google_drive_url_without_patterns_witness :
  fix_google_drive_url (py "https://drive.google.com/uc?id=ABC123")
  = py "https://drive.google.com/uc?id=ABC123".
Proof.
  exact (@fix_google_drive_url_without_patterns
           (py "https://drive.google.com/uc?id=ABC123") eq_refl eq_refl).
Defined.

(** X10. A sharing link [p/file/d/ID/view] followed by anything, such as
    a query [?usp=sharing], becomes [p/uc?id=ID] followed by the same:
    what follows ["/view"] is kept and joined to the file id, provided
    the two patterns occur nowhere else. *)
Theorem fix_google_drive_url_keeps_what_follows_view (p id q : str) :
  contains DRIVE_HOST (p ++ FILE_D ++ id ++ VIEW ++ q) = true ->
  contains FILE_D (p ++ removelast FILE_D) = false ->
  contains FILE_D (id ++ VIEW ++ q) = false ->
  contains VIEW ((p ++ UC_ID ++ id) ++ removelast VIEW) = false ->
  contains VIEW q = false ->
  fix_google_drive_url (p ++ FILE_D ++ id ++ VIEW ++ q)
  = p ++ UC_ID ++ id ++ q.
Proof.
  intros Hd Hp Hid Hv Hq. rewrite (fix_on_drive _ Hd).
  rewrite replace_first by (exact FILE_D_nonempty || exact Hp).
  rewrite (@replace_absent FILE_D UC_ID (id ++ VIEW ++ q)
             FILE_D_nonempty Hid).
  replace (p ++ UC_ID ++ id ++ VIEW ++ q)
    with ((p ++ UC_ID ++ id) ++ VIEW ++ q)
    by (rewrite <- !app_assoc; reflexivity).
  rewrite replace_first by (exact VIEW_nonempty || exact Hv).
  rewrite (@replace_absent VIEW [] q VIEW_nonempty Hq).
  cbn [app]. rewrite <- !app_assoc. reflexivity.
Qed.

Lemma fix_google_drive_url_keeps_what_follows_view_witness :
  fix_google_drive_url
    (py "https://drive.google.com/file/d/ABC123/view?usp=sharing")
  = py "https://drive.google.com/uc?id=ABC123?usp=sharing".
Proof.
  etransitivity.
  - exact (@fix_google_drive_url_keeps_what_follows_view
             (py "https://drive.google.com") (py "ABC123")
             (py "?usp=sharing") eq_refl eq_refl eq_refl eq_refl eq_refl).
  - vm_compute. reflexivity.
Defined.

(** X11. The normalizer never makes a URL longer. *)
Theorem fix_google_drive_url_never_lengthens (url : str) :
  (List.length (fix_google_drive_url url) <= List.length url)%nat.
Proof.
  unfold fix_google_drive_url.
  destruct (contains DRIVE_HOST url); [|lia].
  assert (H1 : (List.length (replace FILE_D UC_ID url)
                <= List.length url)%nat).
  { apply (@replace_length FILE_D UC_ID (List.length url));
      [exact FILE_D_nonempty | cbn; lia | lia]. }
  assert (H2 : (List.length (replace VIEW [] (replace FILE_D UC_ID url))
                <= List.length (replace FILE_D UC_ID url))%nat).
  { apply (@replace_length VIEW []
             (List.length (replace FILE_D UC_ID url)));
      [exact VIEW_nonempty | cbn; lia | lia]. }
  lia.
Qed.

End NormalizerMore.

(** ** The log panel *)

Module PanelFacts.

Import PyStrFacts.

Lemma split_keepends_line (body rest : str) :
  existsb (N.eqb LF) body = false ->
  split_keepends (body ++ [LF] ++ rest)
  = (body ++ [LF]) :: split_keepends rest.
Proof.
  induction body as [|c body IH]; intros H; [reflexivity|].
  cbn [existsb] in H. apply orb_false_iff in H as [Hc H].
  cbn [app split_keepends].
  rewrite N.eqb_sym in Hc. rewrite Hc.
  change (body ++ LF :: rest) with (body ++ [LF] ++ rest).
  rewrite (IH H). reflexivity.
Qed.

(** X12. When no level and no message contains a line break, the panel
    shows one line per entry, in the order of the calls of
    [log_message]: its lines are the level, [" - "] and the message of
    each entry. *)
Theorem panel_shows_one_line_per_entry (log : list entry) :
  forallb (fun e => negb (existsb (N.eqb LF) (level e ++ message e))) log
  = true ->
  split_keepends (panel_text log) = map formatted_message log /\
  List.length (split_keepends (panel_text log)) = List.length log.
Proof.
  intros H.
  assert (Hlines : split_keepends (panel_text log)
                   = map formatted_message log).
  { induction log as [|e log IH]; [reflexivity|].
    cbn [forallb] in H. apply andb_true_iff in H as [He H].
    apply negb_true_iff in He. rewrite existsb_app in He.
    apply orb_false_iff in He as [Hl Hm].
    unfold panel_text in *. cbn [flat_map map]. unfold formatted_message at 1 3.
    replace ((level e ++ py " - " ++ message e ++ [LF])
             ++ flat_map formatted_message log)
      with ((level e ++ py " - " ++ message e) ++ [LF]
            ++ flat_map formatted_message log)
      by (rewrite <- !app_assoc; reflexivity).
    rewrite split_keepends_line.
    - rewrite (IH H), <- !app_assoc. reflexivity.
    - rewrite !existsb_app, Hl, Hm. reflexivity. }
  split; [exact Hlines|]. rewrite Hlines. apply length_map.
Qed.

Lemma panel_shows_one_line_per_entry_witness :
  let log :=
    log_text (fst (google_drive_bulk_download Sample.usual Sample.links_txt
                     Sample.out_path)) in
  List.length (split_keepends (panel_text log)) = 8.
Proof.
  cbv zeta. etransitivity.
  - refine (proj2 (@panel_shows_one_line_per_entry _ _)).
    vm_compute. reflexivity.
  - vm_compute. reflexivity.
Defined.

End PanelFacts.

(** ** The form *)

Module GuiFacts.

Import Gui.

(** What a session adds to the effects of the form. *)
Lemma session_effects (actions : list action) :
  forall f,
  exists new,
    effects (session actions f) = effects f ++ new /\
    Forall (fun e => match e with
                     | StartWorker links_file output_dir =>
                         links_file <> [] /\ output_dir <> []
                     | _ => True
                     end) new /\
    List.length (filter is_start_worker new)
    + List.length (filter is_show_error new)
    = List.length (filter is_click_start actions) /\
    filter is_clear_log new
    = map (fun _ => ClearLog) (filter is_start_worker new).
Proof.
  induction actions as [|a actions IH]; intros f.
  - exists []. cbn. rewrite app_nil_r. repeat split. constructor.
  - cbn [session fold_left].
    destruct (IH (act f a)) as (new & Heff & Hok & Hcount & Hclear).
    change (fold_left act actions (act f a))
      with (session actions (act f a)).
    destruct a as [answer | answer | text | text |].
    + exists new. rewrite Heff. cbn [act filter is_click_start].
      unfold browse_links_file. destruct (truthy answer);
        repeat split; assumption.
    + exists new. rewrite Heff. cbn [act filter is_click_start].
      unfold browse_output_directory. destruct (truthy answer);
        repeat split; assumption.
    + exists new. rewrite Heff. repeat split; assumption.
    + exists new. rewrite Heff. repeat split; assumption.
    + cbn [act] in *. unfold start_download in *.
      destruct (links_file_path f) as [|c l] eqn:El;
        [| destruct (output_directory_path f) as [|d o] eqn:Eo ];
        cbn [truthy negb orb add_effects effects] in *;
        eexists; (split; [rewrite Heff, <- app_assoc; reflexivity|]);
        (split; [repeat constructor; (exact Hok || discriminate)|]);
        cbn [app filter is_start_worker is_show_error is_clear_log
               is_click_start List.length map];
        (split; [lia | rewrite ?Hclear; reflexivity]).
Qed.

(** X13. Whatever the user clicks and types, from the form as it is
    opened: a worker is only ever started with a links file and an
    output directory that are both not empty; every click on the start
    button either shows the error dialog or starts one worker; and the
    log panel is cleared exactly when a worker is started. *)
Theorem start_download_needs_both_fields (actions : list action) :
  let done := effects (session actions opened) in
  Forall (fun e => match e with
                   | StartWorker links_file output_dir =>
                       links_file <> [] /\ output_dir <> []
                   | _ => True
                   end) done /\
  List.length (filter is_start_worker done)
  + List.length (filter is_show_error done)
  = List.length (filter is_click_start actions) /\
  filter is_clear_log done
  = map (fun _ => ClearLog) (filter is_start_worker done).
Proof.
  cbv zeta.
  destruct (session_effects actions opened) as (new & Heff & H).
  cbn [effects opened app] in Heff. rewrite Heff. exact H.
Qed.

Lemma act_cancelled (a : action) (f : form) :
  is_cancelled a = true -> act f a = f.
Proof.
  destruct a as [[|c s] | [|c s] | text | text |]; cbn;
    intros H; (reflexivity || discriminate).
Qed.

(** X14. Cancelling a file or directory dialog changes nothing: a
    session has the same outcome as the session without its cancelled
    dialogs, so that a path chosen earlier stays selected. *)
Theorem cancelled_dialogs_change_nothing (actions : list action) (f : form) :
  session (filter (fun a => negb (is_cancelled a)) actions) f
  = session actions f.
Proof.
  revert f. induction actions as [|a actions IH]; intros f; [reflexivity|].
  cbn [filter]. destruct (is_cancelled a) eqn:E; cbn [negb].
  - cbn [session fold_left]. rewrite (act_cancelled a f E).
    apply IH.
  - cbn [session fold_left]. apply IH.
Qed.

End GuiFacts.
